(** * Locali frontend: the streaming send-message path

    A shallow embedding of
      - [frontend/src/lib/api.ts]       ([ApiClient.streamRequest], [sendMessage]),
      - [frontend/src/store/index.ts]   ([chatStore], [chatActions]),
      - [frontend/src/lib/queries.ts]   ([useSendMessage]),
      - [frontend/src/main.tsx]         (the retry option of mutations),
      - [frontend/src/components/chat/ChatInput.tsx] ([handleSubmit]),
    and the properties of the streaming protocol that hold (or fail) on it;
    then of the code around it: [request] and the stream helpers of
    [api.ts], [appActions] and [documentActions], the other mutations and
    the keys of [queries.ts], what [ChatInput] and [MessageList] render,
    the groups of [ConversationList.tsx], and [truncateText] and
    [throttle] of [utils.ts]. *)

From Stdlib Require Import List Bool Arith NArith ZArith Lia.
From Stdlib.Strings Require Import String Byte.
Import ListNotations.

Set Warnings "-register-all".

(* ================================================================== *)
(** * JavaScript strings *)
(* ================================================================== *)

(** A JavaScript string is modelled by its sequence of Unicode scalar
    values.  Every string on this path comes out of a UTF-8 [TextDecoder]
    (which never produces a lone surrogate) or is ASCII program text, and
    the operations used ([split], [startsWith], [slice(6)] after
    [startsWith('data: ')], [trim], [+=], [===]) act alike on scalar values
    and on UTF-16 code units for such strings. *)
Module Js.

Definition jsstring := list N.

(** An ASCII literal of the program text. *)
Definition lit (s : string) : jsstring :=
  map Byte.to_N (list_byte_of_string s).

(** [a === b] on strings. *)
Fixpoint eqb (a b : jsstring) : bool :=
  match a, b with
  | [], [] => true
  | x :: a', y :: b' => N.eqb x y && eqb a' b'
  | _, _ => false
  end.

(** [s.startsWith(p)]. *)
Fixpoint startsWith (p s : jsstring) : bool :=
  match p, s with
  | [], _ => true
  | x :: p', y :: s' => N.eqb x y && startsWith p' s'
  | _ :: _, [] => false
  end.

(** [s.slice(n)] for [n >= 0]. *)
Definition slice (n : nat) (s : jsstring) : jsstring := skipn n s.

(** ECMAScript WhiteSpace and LineTerminator code points, the ones
    [String.prototype.trim] removes. *)
Definition isWhiteSpace (c : N) : bool :=
  ((9 <=? c) && (c <=? 13) || (c =? 32) || (c =? 160) || (c =? 5760)
   || (8192 <=? c) && (c <=? 8202) || (c =? 8232) || (c =? 8233)
   || (c =? 8239) || (c =? 8287) || (c =? 12288) || (c =? 65279))%N.

Fixpoint trimStart (s : jsstring) : jsstring :=
  match s with
  | c :: s' => if isWhiteSpace c then trimStart s' else s
  | [] => []
  end.

Definition trimEnd (s : jsstring) : jsstring := rev (trimStart (rev s)).

(** [s.trim()]. *)
Definition trim (s : jsstring) : jsstring := trimEnd (trimStart s).

(** [s.split('\n')]: never empty, ["".split('\n')] is [[""]]. *)
Fixpoint split_nl (s : jsstring) : list jsstring :=
  match s with
  | [] => [[]]
  | c :: s' =>
      if (c =? 10)%N then [] :: split_nl s'
      else match split_nl s' with
           | l :: ls => (c :: l) :: ls
           | [] => [[c]]
           end
  end.

(** Truthiness of a string: non-empty. *)
Definition truthy (s : jsstring) : bool :=
  match s with [] => false | _ :: _ => true end.

(** Concatenation of a list of strings, in order. *)
Definition concat (l : list jsstring) : jsstring := List.concat l.

(** Decimal rendering of a non-negative integer, as template literals and
    [Number.prototype.toString] give it. *)
Fixpoint digits (d : Decimal.uint) : jsstring :=
  match d with
  | Decimal.Nil => []
  | Decimal.D0 d' => 48%N :: digits d'
  | Decimal.D1 d' => 49%N :: digits d'
  | Decimal.D2 d' => 50%N :: digits d'
  | Decimal.D3 d' => 51%N :: digits d'
  | Decimal.D4 d' => 52%N :: digits d'
  | Decimal.D5 d' => 53%N :: digits d'
  | Decimal.D6 d' => 54%N :: digits d'
  | Decimal.D7 d' => 55%N :: digits d'
  | Decimal.D8 d' => 56%N :: digits d'
  | Decimal.D9 d' => 57%N :: digits d'
  end.

Definition ofNat (n : N) : jsstring := digits (N.to_uint n).

End Js.

Import Js.

(* ================================================================== *)
(** * The platform's [TextDecoder] *)
(* ================================================================== *)

(** [new TextDecoder()] is the UTF-8 decoder of the Encoding standard with
    [fatal = false] and [ignoreBOM = false].  [streamRequest] calls
    [decoder.decode(value)] without [{stream: true}], so every call runs a
    fresh decoder over one chunk and flushes it at the end of the chunk:
    an incomplete sequence at the end of a chunk becomes U+FFFD, and a
    leading byte order mark of the chunk is dropped. *)
Module TextDecoder.

Record state := mkState {
  code_point : N;
  bytes_seen : N;
  bytes_needed : N;
  lower_boundary : N;
  upper_boundary : N
}.

Definition init : state := mkState 0 0 0 128 191.

Definition replacement : N := 65533.

(** The handler of the UTF-8 decoder when no bytes are needed: the code
    points emitted and the next state. *)
Definition lead (b : N) : list N * state :=
  if (b <=? 127)%N then ([b], init)
  else if ((194 <=? b) && (b <=? 223))%N then
    ([], mkState (N.land b 31) 0 1 128 191)
  else if ((224 <=? b) && (b <=? 239))%N then
    ([], mkState (N.land b 15) 0 2
           (if (b =? 224)%N then 160 else 128)
           (if (b =? 237)%N then 159 else 191))
  else if ((240 <=? b) && (b <=? 244))%N then
    ([], mkState (N.land b 7) 0 3
           (if (b =? 240)%N then 144 else 128)
           (if (b =? 244)%N then 143 else 191))
  else ([replacement], init).

(** The handler when continuation bytes are needed. *)
Definition continuation (st : state) (b : N) : list N * state :=
  if ((lower_boundary st <=? b) && (b <=? upper_boundary st))%N then
    let cp := N.lor (N.shiftl (code_point st) 6) (N.land b 63) in
    let seen := (bytes_seen st + 1)%N in
    if (seen =? bytes_needed st)%N then ([cp], init)
    else ([], mkState cp seen (bytes_needed st) 128 191)
  else
    (* error; the byte is put back and handled again with no bytes needed *)
    let '(out, st') := lead b in (replacement :: out, st').

Definition handler (st : state) (b : N) : list N * state :=
  if (bytes_needed st =? 0)%N then lead b else continuation st b.

(** Running the decoder over the bytes of one call, flushing at the end. *)
Fixpoint run (st : state) (bs : list byte) : jsstring :=
  match bs with
  | [] => if (bytes_needed st =? 0)%N then [] else [replacement]
  | b :: rest =>
      let '(out, st') := handler st (Byte.to_N b) in
      out ++ run st' rest
  end.

(** Serialising the output drops one leading U+FEFF. *)
Definition stripBOM (s : jsstring) : jsstring :=
  match s with
  | c :: s' => if (c =? 65279)%N then s' else s
  | [] => []
  end.

(** [decoder.decode(value)]. *)
Definition decode (value : list byte) : jsstring :=
  stripBOM (run init value).

(** A state that accepts no byte below 0x80 as a continuation; every
    state the decoder reaches is one. *)
Definition wf (st : state) : Prop := (128 <= lower_boundary st)%N.

(** The text begins with U+FEFF. *)
Definition headBOM (s : jsstring) : bool :=
  match s with
  | c :: _ => (c =? 65279)%N
  | [] => false
  end.

End TextDecoder.

(** The bytes of an ASCII literal. *)
Definition bytes (s : string) : list byte := list_byte_of_string s.

(* ================================================================== *)
(** * [frontend/src/types]: errors, and the values of a JSON body *)
(* ================================================================== *)

Module Types.

(** What a [throw] or a rejected promise can carry on this path. *)
Inductive JsThrown :=
| ApiError (message : jsstring) (status : option N) (code : option jsstring)
| NetworkError (message : jsstring)
| OtherError (name message : jsstring)   (* any other [Error] instance *)
| NonError.                              (* a thrown value that is no [Error] *)

(** [error instanceof ApiError]. *)
Definition isApiError (e : JsThrown) : bool :=
  match e with ApiError _ _ _ => true | _ => false end.

(** [error instanceof Error ? error.message : dflt]. *)
Definition messageOr (dflt : jsstring) (e : JsThrown) : jsstring :=
  match e with
  | ApiError m _ _ => m
  | NetworkError m => m
  | OtherError _ m => m
  | NonError => dflt
  end.

(** The value [response.json()] resolves to.  A number is kept by what the
    code can observe of it: whether it is non-zero and its rendering.  An
    object is kept by its own members, whose keys are distinct. *)
Inductive JsValue :=
| JNull
| JBool (b : bool)
| JNumber (nonzero : bool) (text : jsstring)
| JString (s : jsstring)
| JArray (items : list JsValue)
| JObject (members : list (jsstring * JsValue)).

Fixpoint lookup (k : jsstring) (members : list (jsstring * JsValue))
  : option JsValue :=
  match members with
  | [] => None
  | (k', v) :: rest => if Js.eqb k k' then Some v else lookup k rest
  end.

(** Reading a property: [None] is the [TypeError] of reading a property of
    [null]; [Some None] is [undefined]. *)
Definition getProperty (v : JsValue) (k : jsstring)
  : option (option JsValue) :=
  match v with
  | JNull => None
  | JObject members => Some (lookup k members)
  | _ => Some None
  end.

Definition truthy (v : JsValue) : bool :=
  match v with
  | JNull => false
  | JBool b => b
  | JNumber nonzero _ => nonzero
  | JString s => Js.truthy s
  | JArray _ | JObject _ => true
  end.

Fixpoint join (sep : jsstring) (l : list jsstring) : jsstring :=
  match l with
  | [] => []
  | [x] => x
  | x :: rest => x ++ sep ++ join sep rest
  end.

(** The conversion the [Error] constructor applies to its message;
    [None] is the [TypeError] it throws.  An object that has no member
    [toString] of its own answers through [Object.prototype.toString].  One
    that has such a member shadows that method with a value that cannot be
    called; [valueOf], its own or the inherited one, gives no primitive
    either, and the conversion throws.  An array joins the conversions of its
    items, [null] giving the empty string, and throws when one of them
    does. *)
Fixpoint ToString (v : JsValue) : option jsstring :=
  match v with
  | JNull => Some (lit "null")
  | JBool true => Some (lit "true")
  | JBool false => Some (lit "false")
  | JNumber _ text => Some text
  | JString s => Some s
  | JArray items =>
      option_map (join (lit ","))
        ((fix each (l : list JsValue) : option (list jsstring) :=
            match l with
            | [] => Some []
            | x :: rest =>
                match match x with JNull => Some [] | _ => ToString x end with
                | Some text =>
                    match each rest with
                    | Some texts => Some (text :: texts)
                    | None => None
                    end
                | None => None
                end
            end) items)
  | JObject members =>
      match lookup (lit "toString") members with
      | Some _ => None
      | None => Some (lit "[object Object]")
      end
  end.

(** What [new ApiError(message, ...)] throws when [message] cannot be
    converted. *)
Definition conversionError : JsThrown :=
  OtherError (lit "TypeError") (lit "Cannot convert object to primitive value").

End Types.

Import Types.

(* ================================================================== *)
(** * [frontend/src/lib/api.ts] *)
(* ================================================================== *)

Module Api.

(** How the body's byte source ends once its chunks are read:
    [reader.read()] resolves with [done], or rejects. *)
Inductive SourceEnd :=
| SrcDone
| SrcFail (e : JsThrown).

(** The reads of [response.body.getReader()], in order. *)
Record ByteSource := mkSource {
  chunks : list (list byte);
  ending : SourceEnd
}.

Record Response := mkResponse {
  ok : bool;
  status : N;
  statusText : jsstring;
  json : option JsValue;      (* [None]: [response.json()] rejects *)
  body : option ByteSource    (* [None]: [response.body] is null *)
}.

Inductive FetchOutcome :=
| FetchRejected (e : JsThrown)
| FetchResolved (response : Response).

(** How a [ReadableStream<string>] ends. *)
Inductive StreamEnd :=
| Closed
| Errored (e : JsThrown).

(** A stream of strings: the strings in order, then the end.  For the
    stream [streamRequest] returns these are the strings handed to
    [controller.enqueue] and the call that ended it, [controller.close] or
    [controller.error]; for a reader they are the strings its reads resolved
    with and how the read after them settled. *)
Definition TokenStream : Type := list jsstring * StreamEnd.

(** What the reader of a stream gets of what was enqueued.  A closed stream
    hands out all of its queue before [done].  [controller.error] empties
    the queue: the reader has the [taken] strings its reads had resolved with
    by then, and its next read rejects. *)
Definition readBy (taken : nat) (stream : TokenStream) : TokenStream :=
  match stream with
  | (tokens, Closed) => (tokens, Closed)
  | (tokens, Errored e) => (firstn taken tokens, Errored e)
  end.

(** The [for (const line of lines)] loop of [pump]: the strings handed to
    [controller.enqueue], and whether the loop left through
    [controller.close(); return]. *)
Fixpoint forLines (lines : list jsstring) : list jsstring * bool :=
  match lines with
  | [] => ([], false)
  | line :: rest =>
      if startsWith (lit "data: ") line then
        let data := trim (slice 6 line) in
        if Js.eqb data (lit "[DONE]") then ([], true)
        else if Js.truthy data then
          let '(toks, closed) := forLines rest in (data :: toks, closed)
        else forLines rest
      else forLines rest
  end.

(** [pump]: one [reader.read()] per call; the strings it enqueues and the
    call that ends the stream. *)
Fixpoint pump (reads : list (list byte)) (fin : SourceEnd) : TokenStream :=
  match reads with
  | [] =>
      match fin with
      | SrcDone => ([], Closed)
      | SrcFail e => ([], Errored e)
      end
  | value :: rest =>
      let chunk := TextDecoder.decode value in
      let lines := split_nl chunk in
      let '(toks, closed) := forLines lines in
      if closed then (toks, Closed)
      else let '(more, e) := pump rest fin in (toks ++ more, e)
  end.

(** The lines the loop of [pump] sees over all reads, in order. *)
Definition allLines (reads : list (list byte)) : list jsstring :=
  flat_map (fun value => split_nl (TextDecoder.decode value)) reads.

(** How the stream ends when no sentinel line was seen. *)
Definition endOf (fin : SourceEnd) : StreamEnd :=
  match fin with
  | SrcDone => Closed
  | SrcFail e => Errored e
  end.

Definition noBodyMessage : jsstring :=
  lit "No response body for streaming request".

Definition connectionMessage : jsstring :=
  lit "Failed to establish streaming connection".

(** [`HTTP ${response.status}: ${response.statusText}`] *)
Definition httpMessage (response : Response) : jsstring :=
  lit "HTTP " ++ ofNat (status response) ++ lit ": " ++ statusText response.

(** The body of the [try] block of [streamRequest]. *)
Definition streamRequestTry (f : FetchOutcome) : JsThrown + TokenStream :=
  match f with
  | FetchRejected e => inl e
  | FetchResolved response =>
      if negb (ok response) then
        let errorData :=
          match json response with
          | Some v => v
          | None => JObject []
          end in
        match getProperty errorData (lit "detail") with
        | None =>
            inl (OtherError (lit "TypeError")
                   (lit "Cannot read properties of null (reading 'detail')"))
        | Some detail =>
            let message :=
              match detail with
              | Some d =>
                  if truthy d then ToString d else Some (httpMessage response)
              | None => Some (httpMessage response)
              end in
            match message with
            | Some m => inl (ApiError m (Some (status response)) None)
            | None => inl conversionError
            end
        end
      else
        match body response with
        | None => inl (ApiError noBodyMessage None None)
        | Some src => inr (pump (chunks src) (ending src))
        end
  end.

(** [streamRequest], with its [catch]. *)
Definition streamRequest (f : FetchOutcome) : JsThrown + TokenStream :=
  match streamRequestTry f with
  | inl error =>
      if isApiError error then inl error
      else inl (NetworkError connectionMessage)
  | inr stream => inr stream
  end.

End Api.

Import Api.

(* ================================================================== *)
(** * [frontend/src/store/index.ts] *)
(* ================================================================== *)

Module Store.

Inductive Role := user | assistant | system.

(** [Message]; the optional [tokens] and [metadata] are never read or
    written on this path and are left out. *)
Record Message := mkMessage {
  id : jsstring;
  role : Role;
  content : jsstring;
  timestamp : jsstring
}.

(** [ChatStore]; [selectedMessages] and [editingMessageId] are only
    touched by the selection actions and are left out. *)
Record ChatStore := mkChat {
  messages : list Message;
  isStreaming : bool;
  currentResponse : jsstring;
  isLoading : bool;
  error : option jsstring;
  inputValue : jsstring;
  isComposing : bool
}.

(** The part of [AppStore] that [handleSubmit] reads. *)
Record AppStore := mkApp {
  currentConversationId : option jsstring;
  currentModelName : option jsstring
}.

(** [export const chatStore = proxy<ChatStore>({...})] *)
Definition chatStore : ChatStore := mkChat [] false [] false None [] false.

Definition isAssistant (r : Role) : bool :=
  match r with assistant => true | _ => false end.

Definition withContent (c : jsstring) (m : Message) : Message :=
  mkMessage (id m) (role m) c (timestamp m).

(** [l[l.length - 1] = v] on a non-empty array. *)
Fixpoint setLast (v : Message) (l : list Message) : list Message :=
  match l with
  | [] => []
  | [_] => [v]
  | m :: rest => m :: setLast v rest
  end.

(** [l[l.length - 1]], [undefined] on the empty array. *)
Definition lastOf (l : list Message) : option Message :=
  nth_error l (List.length l - 1).

Module chatActions.

Definition addMessage (message : Message) (s : ChatStore) : ChatStore :=
  mkChat (messages s ++ [message]) (isStreaming s) (currentResponse s)
         (isLoading s) (error s) (inputValue s) (isComposing s).

Definition updateLastMessage (c : jsstring) (s : ChatStore) : ChatStore :=
  match lastOf (messages s) with
  | Some lastMessage =>
      if isAssistant (role lastMessage) then
        mkChat (setLast (withContent c lastMessage) (messages s))
               (isStreaming s) (currentResponse s)
               (isLoading s) (error s) (inputValue s) (isComposing s)
      else s
  | None => s
  end.

Definition appendToResponse (token : jsstring) (s : ChatStore) : ChatStore :=
  let response := currentResponse s ++ token in
  let s1 := mkChat (messages s) (isStreaming s) response
                   (isLoading s) (error s) (inputValue s) (isComposing s) in
  match lastOf (messages s1) with
  | Some lastMessage =>
      if isAssistant (role lastMessage) then
        mkChat (setLast (withContent response lastMessage) (messages s1))
               (isStreaming s1) response
               (isLoading s1) (error s1) (inputValue s1) (isComposing s1)
      else s1
  | None => s1
  end.

Definition setStreaming (b : bool) (s : ChatStore) : ChatStore :=
  mkChat (messages s) b (if negb b then [] else currentResponse s)
         (isLoading s) (error s) (inputValue s) (isComposing s).

Definition setLoading (b : bool) (s : ChatStore) : ChatStore :=
  mkChat (messages s) (isStreaming s) (currentResponse s)
         b (error s) (inputValue s) (isComposing s).

Definition setError (e : option jsstring) (s : ChatStore) : ChatStore :=
  mkChat (messages s) (isStreaming s) (currentResponse s)
         (isLoading s) e (inputValue s) (isComposing s).

Definition setInputValue (v : jsstring) (s : ChatStore) : ChatStore :=
  mkChat (messages s) (isStreaming s) (currentResponse s)
         (isLoading s) (error s) v (isComposing s).

Definition setComposing (b : bool) (s : ChatStore) : ChatStore :=
  mkChat (messages s) (isStreaming s) (currentResponse s)
         (isLoading s) (error s) (inputValue s) b.

Definition clearMessages (s : ChatStore) : ChatStore :=
  mkChat [] false [] (isLoading s) None (inputValue s) (isComposing s).

Definition setMessages (l : list Message) (s : ChatStore) : ChatStore :=
  mkChat l (isStreaming s) (currentResponse s)
         (isLoading s) (error s) (inputValue s) (isComposing s).

End chatActions.

End Store.

Import Store.

(* ================================================================== *)
(** * [frontend/src/lib/queries.ts]: [useSendMessage] *)
(* ================================================================== *)

Module Queries.

(** [SendMessageRequest]; the numbers are kept by their literals. *)
Record SendMessageRequest := mkRequest {
  message : jsstring;
  model_name : option jsstring;
  temperature : option jsstring;
  max_tokens : option N
}.

(** What a run of the mutation takes from its surroundings: two
    [crypto.randomUUID()], two [new Date().toISOString()], and how many of
    the enqueued strings its reads have resolved with when the stream is
    errored. *)
Record Env := mkEnv {
  userId : jsstring;
  userTimestamp : jsstring;
  assistantId : jsstring;
  assistantTimestamp : jsstring;
  taken : nat
}.

(** The calls a send makes, in program order: the [chatActions], the
    request, the cache invalidations and the toast of [handleSubmit]. *)
Inductive Effect :=
| SetStreaming (b : bool)
| SetError (e : option jsstring)
| AddMessage (m : Message)
| AppendToResponse (token : jsstring)
| SetInputValue (v : jsstring)
| ApiSendMessage (conversationId : jsstring) (data : SendMessageRequest)
| InvalidateQueries (queryKey : list jsstring)
| ToastError (text : jsstring).

(** What a call does to [chatStore]. *)
Definition apply (e : Effect) (s : ChatStore) : ChatStore :=
  match e with
  | SetStreaming b => chatActions.setStreaming b s
  | SetError err => chatActions.setError err s
  | AddMessage m => chatActions.addMessage m s
  | AppendToResponse token => chatActions.appendToResponse token s
  | SetInputValue v => chatActions.setInputValue v s
  | ApiSendMessage _ _ | InvalidateQueries _ | ToastError _ => s
  end.

Definition exec (trace : list Effect) (s : ChatStore) : ChatStore :=
  fold_left (fun s e => apply e s) trace s.

(** How the promise of an [async] function settles. *)
Inductive Outcome :=
| Resolved
| Rejected (e : JsThrown).

Definition userMessage (env : Env) (data : SendMessageRequest) : Message :=
  mkMessage (userId env) user (message data) (userTimestamp env).

Definition assistantMessage (env : Env) : Message :=
  mkMessage (assistantId env) assistant [] (assistantTimestamp env).

(** The statements of [mutationFn] before its [try]. *)
Definition opening (env : Env) (data : SendMessageRequest) : list Effect :=
  [ SetStreaming true; SetError None;
    AddMessage (userMessage env data); AddMessage (assistantMessage env) ].

(** The [catch] block. *)
Definition catchBlock (error : JsThrown) : list Effect :=
  [ SetStreaming false;
    SetError (Some (messageOr (lit "Failed to send message") error)) ].

(** The end of the [try] block, after the reading loop. *)
Definition completion (conversationId : jsstring) : list Effect :=
  [ SetStreaming false;
    InvalidateQueries [lit "conversation"; conversationId];
    InvalidateQueries [lit "conversations"] ].

(** [mutationFn], given what [await api.sendMessage(...)] and the reads of
    the stream's reader yield. *)
Definition mutationFnOn (env : Env) (conversationId : jsstring)
    (data : SendMessageRequest) (sent : JsThrown + TokenStream)
  : list Effect * Outcome :=
  let request := [ApiSendMessage conversationId data] in
  match sent with
  | inl error =>
      (opening env data ++ request ++ catchBlock error, Rejected error)
  | inr (tokens, Closed) =>
      (opening env data ++ request ++ map AppendToResponse tokens
         ++ completion conversationId, Resolved)
  | inr (tokens, Errored error) =>
      (opening env data ++ request ++ map AppendToResponse tokens
         ++ catchBlock error, Rejected error)
  end.

(** [api.sendMessage(conversationId, data)] *)
Definition sendMessage (conversationId : jsstring)
    (data : SendMessageRequest) (net : FetchOutcome)
  : JsThrown + TokenStream :=
  streamRequest net.

(** What [await api.sendMessage(...)] and the reading loop yield over the
    network's answer. *)
Definition received (env : Env) (conversationId : jsstring)
    (data : SendMessageRequest) (net : FetchOutcome)
  : JsThrown + TokenStream :=
  match sendMessage conversationId data net with
  | inl error => inl error
  | inr stream => inr (readBy (taken env) stream)
  end.

(** [mutationFn] over the network's answer. *)
Definition mutationFn (env : Env) (conversationId : jsstring)
    (data : SendMessageRequest) (net : FetchOutcome)
  : list Effect * Outcome :=
  mutationFnOn env conversationId data
    (received env conversationId data net).

(** The calls of a send up to the moment [n] tokens have been applied. *)
Definition upTo (env : Env) (conversationId : jsstring)
    (data : SendMessageRequest) (tokens : list jsstring) (n : nat)
  : list Effect :=
  opening env data ++ [ApiSendMessage conversationId data]
    ++ map AppendToResponse (firstn n tokens).

(** The store while a send is in flight, after [n] tokens were applied. *)
Definition inFlight (env : Env) (conversationId : jsstring)
    (data : SendMessageRequest) (tokens : list jsstring) (n : nat)
    (s : ChatStore) : ChatStore :=
  exec (upTo env conversationId data tokens n) s.

(** The tokens a send applied. *)
Definition applied (sent : JsThrown + TokenStream) : list jsstring :=
  match sent with
  | inl _ => []
  | inr (tokens, _) => tokens
  end.

(** The error a send failed with: [api.sendMessage] rejected, or a read of
    the stream did. *)
Definition failure (sent : JsThrown + TokenStream) : option JsThrown :=
  match sent with
  | inl e => Some e
  | inr (_, Errored e) => Some e
  | inr (_, Closed) => None
  end.

(** [chatActions.setStreaming(false)] *)
Definition clearsStreaming (e : Effect) : bool :=
  match e with
  | SetStreaming false => true
  | _ => false
  end.

(** Stores the application reaches between sends: what other components
    call on [chatStore] ([ChatInput] and [ChatPage]), and sends run to
    their end. *)
Inductive UiAction :=
| UiSetInputValue (v : jsstring)
| UiSetMessages (l : list Message)
| UiClearMessages
| UiSetLoading (b : bool)
| UiSetComposing (b : bool).

Inductive Event :=
| Ui (a : UiAction)
| Send (env : Env) (conversationId : jsstring) (data : SendMessageRequest)
       (sent : JsThrown + TokenStream).

Definition step (s : ChatStore) (ev : Event) : ChatStore :=
  match ev with
  | Ui (UiSetInputValue v) => chatActions.setInputValue v s
  | Ui (UiSetMessages l) => chatActions.setMessages l s
  | Ui UiClearMessages => chatActions.clearMessages s
  | Ui (UiSetLoading b) => chatActions.setLoading b s
  | Ui (UiSetComposing b) => chatActions.setComposing b s
  | Send env conversationId data sent =>
      exec (fst (mutationFnOn env conversationId data sent)) s
  end.

Definition after (history : list Event) : ChatStore :=
  fold_left step history chatStore.

End Queries.

Import Queries.

(* ================================================================== *)
(** * [frontend/src/main.tsx]: the options of the [QueryClient] *)
(* ================================================================== *)

Module Main.

(** [error?.status]; only an [ApiError] carries one. *)
Definition statusOf (error : JsThrown) : option N :=
  match error with
  | ApiError _ st _ => st
  | _ => None
  end.

(** [defaultOptions.mutations.retry] *)
Definition retry (failureCount : nat) (error : JsThrown) : bool :=
  match statusOf error with
  | Some st =>
      if (st =? 404)%N || (st =? 401)%N then false else failureCount <? 2
  | None => failureCount <? 2
  end.

(** What the successive runs of a mutation find: the surroundings and the
    network's answer of run 0, of run 1, ... *)
Definition World : Type := nat -> Env * FetchOutcome.

(** The runs of [mutationFn] the mutation makes from its run number
    [failureCount] on: a run that rejects is followed by another when
    [retry] says so.  [more] bounds the runs that may follow. *)
Fixpoint runs (more : nat) (failureCount : nat) (world : World)
    (conversationId : jsstring) (data : SendMessageRequest)
  : list Effect * Outcome :=
  let env := fst (world failureCount) in
  let net := snd (world failureCount) in
  match mutationFn env conversationId data net with
  | (trace, Resolved) => (trace, Resolved)
  | (trace, Rejected error) =>
      if retry failureCount error then
        match more with
        | S more' =>
            let '(later, settled) :=
              runs more' (S failureCount) world conversationId data in
            (trace ++ later, settled)
        | O => (trace, Rejected error)
        end
      else (trace, Rejected error)
  end.

(** [sendMessage.mutateAsync({ conversationId, data })]: [retry] allows no
    run after the third, so two further runs are all there can be. *)
Definition mutateAsync (world : World) (conversationId : jsstring)
    (data : SendMessageRequest) : list Effect * Outcome :=
  runs 2 0 world conversationId data.

(** Run number [i] of the mutation, and what its request and its reads
    yield. *)
Definition runAt (world : World) (conversationId : jsstring)
    (data : SendMessageRequest) (i : nat) : list Effect * Outcome :=
  mutationFn (fst (world i)) conversationId data (snd (world i)).

Definition sentAt (world : World) (conversationId : jsstring)
    (data : SendMessageRequest) (i : nat) : JsThrown + TokenStream :=
  received (fst (world i)) conversationId data (snd (world i)).

(** The two messages run number [i] leaves in the transcript. *)
Definition added (world : World) (conversationId : jsstring)
    (data : SendMessageRequest) (i : nat) : list Message :=
  [ userMessage (fst (world i)) data;
    withContent (Js.concat (applied (sentAt world conversationId data i)))
                (assistantMessage (fst (world i))) ].

End Main.

Import Main.

(* ================================================================== *)
(** * [frontend/src/components/chat/ChatInput.tsx]: [handleSubmit] *)
(* ================================================================== *)

Module ChatInput.

(** [!!id] for an optional string. *)
Definition present (id : option jsstring) : bool :=
  match id with
  | Some s => Js.truthy s
  | None => false
  end.

(** [handleSubmit]: the calls it makes and how its promise settles, the
    runs of the mutation included.  The resizing of the textarea is left
    out. *)
Definition handleSubmit (chat : ChatStore) (app : AppStore)
    (world : World) : list Effect * Outcome :=
  if negb (Js.truthy (trim (inputValue chat))) || isStreaming chat
     || negb (present (currentConversationId app))
  then ([], Resolved)
  else
    let message := trim (inputValue chat) in
    let conversationId :=
      match currentConversationId app with Some c => c | None => [] end in
    let data := mkRequest message (currentModelName app)
                  (Some (lit "0.3")) (Some 2048%N) in
    match mutateAsync world conversationId data with
    | (trace, Resolved) => (SetInputValue [] :: trace, Resolved)
    | (trace, Rejected _) =>
        (SetInputValue [] :: trace
           ++ [ToastError (lit "Failed to send message");
               SetInputValue message], Resolved)
    end.

(** An error reaches the caller of a function when its promise rejects or
    when a toast is shown. *)
Definition surfacesError (r : list Effect * Outcome) : bool :=
  match snd r with
  | Rejected _ => true
  | Resolved =>
      existsb (fun e => match e with ToastError _ => true | _ => false end)
              (fst r)
  end.

(** The request went out. *)
Definition requested (trace : list Effect) : bool :=
  existsb (fun e => match e with ApiSendMessage _ _ => true | _ => false end)
          trace.

End ChatInput.

Import ChatInput.

(* ================================================================== *)
(** * Partitions of a byte sequence into chunks *)
(* ================================================================== *)

Module Chunking.

(** The chunk's last byte is a line feed. *)
Fixpoint endsWithLF (value : list byte) : bool :=
  match value with
  | [] => false
  | [b] => Byte.eqb b x0a
  | _ :: rest => endsWithLF rest
  end.

(** The chunk begins with the UTF-8 byte order mark, EF BB BF. *)
Definition startsWithBOM (value : list byte) : bool :=
  match value with
  | b1 :: b2 :: b3 :: _ => Byte.eqb b1 xef && Byte.eqb b2 xbb && Byte.eqb b3 xbf
  | _ => false
  end.

(** Every cut falls right after a line feed and not before a byte order
    mark: each chunk that has a successor ends with a line feed, and the
    successor does not begin with the mark. *)
Fixpoint cutAfter (value : list byte) (rest : list (list byte)) : bool :=
  match rest with
  | [] => true
  | next :: rest' =>
      endsWithLF value && negb (startsWithBOM next) && cutAfter next rest'
  end.

Definition cutAtLineEnds (reads : list (list byte)) : bool :=
  match reads with
  | [] => true
  | value :: rest => cutAfter value rest
  end.

End Chunking.

Import Chunking.

(* ================================================================== *)
(** * Sample inputs *)
(* ================================================================== *)

Module Samples.

Definition LF : list byte := [x0a]%byte.

(** Example A of the protocol description: three chunks. *)
Definition exampleA : list (list byte) :=
  [ bytes "data: Hel";
    bytes "lo" ++ LF ++ bytes "data: ";
    bytes " World" ++ LF ++ bytes "data: [DONE]" ++ LF ].

(** One line, whole and cut in two. *)
Definition helloLine : list byte := bytes "data: Hello" ++ LF.
Definition helloCut : list (list byte) := [bytes "data: Hel"; bytes "lo" ++ LF].

(** A line carrying U+00E9, whole and cut inside the character. *)
Definition eAcuteLine : list byte := bytes "data: " ++ [xc3; xa9; x0a]%byte.
Definition eAcuteCut : list (list byte) :=
  [bytes "data: " ++ [xc3]%byte; [xa9; x0a]%byte].

(** Two lines, cut at the line end. *)
Definition twoLines : list (list byte) :=
  [bytes "data: Hello" ++ LF; bytes "data: World" ++ LF].

Definition fooThenClose : list (list byte) := [bytes "data: foo" ++ LF].

Definition envA : Env :=
  mkEnv (lit "u-1") (lit "t-1") (lit "a-1") (lit "t-2") 0.
Definition envB : Env :=
  mkEnv (lit "u-2") (lit "t-3") (lit "a-2") (lit "t-4") 0.

(** Every run finds the same surroundings and the same answer. *)
Definition always (env : Env) (net : FetchOutcome) : World :=
  fun _ => (env, net).

Definition dataA : SendMessageRequest :=
  mkRequest (lit "first question") None (Some (lit "0.3")) (Some 2048%N).
Definition dataB : SendMessageRequest :=
  mkRequest (lit "second question") None (Some (lit "0.3")) (Some 2048%N).

Definition convA : jsstring := lit "conversation-a".
Definition convB : jsstring := lit "conversation-b".

Definition okResponse (src : ByteSource) : Response :=
  mkResponse true 200 (lit "OK") None (Some src).

(** Example B: status 500 with the body [{"detail": "model not loaded"}]. *)
Definition exampleB : Response :=
  mkResponse false 500 (lit "Internal Server Error")
    (Some (JObject [(lit "detail", JString (lit "model not loaded"))])) None.

(** Status 500 with the JSON body [null]. *)
Definition nullBody : Response :=
  mkResponse false 500 (lit "Internal Server Error") (Some JNull) None.

(** Status 500 with the body [{"detail": {"toString": "x"}}]. *)
Definition shadowedDetail : Response :=
  mkResponse false 500 (lit "Internal Server Error")
    (Some (JObject
             [(lit "detail", JObject [(lit "toString", JString (lit "x"))])]))
    None.

(** Status 502 with a body that is not JSON. *)
Definition htmlBody : Response :=
  mkResponse false 502 (lit "Bad Gateway") None None.


(** The store and selection seen by [ChatInput] in three situations. *)
Definition selectedA : AppStore := mkApp (Some convA) None.
Definition noneSelected : AppStore := mkApp None None.
Definition blankInput : ChatStore :=
  chatActions.setInputValue (lit "   ") chatStore.
Definition typed : ChatStore :=
  chatActions.setInputValue (lit "hello") chatStore.
Definition typedWhileStreaming : ChatStore :=
  chatActions.setStreaming true typed.

(** The store while two sends are in flight: the one for [convA] began,
    then the one for [convB] began; neither has applied a token. *)
Definition bothInFlight : ChatStore :=
  inFlight envB convB dataB [] 0 (inFlight envA convA dataA [] 0 chatStore).

(** The store when a send finds text in the buffer: the send for [convA]
    has applied the token "old" and is still in flight. *)
Definition usedBuffer : ChatStore :=
  apply (AppendToResponse (lit "old"))
        (inFlight envA convA dataA [lit "old"] 0 chatStore).

(** The messages of a conversation as the server has them, ending with an
    earlier answer. *)
Definition loaded : list Message :=
  [ mkMessage (lit "m-1") user (lit "earlier question") (lit "t-0");
    mkMessage (lit "m-2") assistant (lit "earlier answer") (lit "t-0") ].

(** Three lines, the second one the sentinel, whole and cut inside the
    sentinel. *)
Definition sentinelWhole : list byte :=
  bytes "data: a" ++ LF ++ bytes "data: [DONE]" ++ LF ++ bytes "data: b" ++ LF.
Definition sentinelCut : list (list byte) :=
  [ bytes "data: a" ++ LF ++ bytes "data: [DO";
    bytes "NE]" ++ LF ++ bytes "data: b" ++ LF ].

(** The line "data: X" and its line feed, one byte per chunk. *)
Definition byteAtATime : list (list byte) :=
  map (fun b => [b]) (bytes "data: X" ++ LF).

(** A cut after a line feed, before a byte order mark. *)
Definition markAfterCut : list (list byte) :=
  [bytes "data: a" ++ LF; [xef; xbb; xbf]%byte ++ bytes "data: b" ++ LF].

End Samples.

Import Samples.

(* ================================================================== *)
(** * [frontend/src/lib/api.ts]: [request] and the stream helpers *)
(* ================================================================== *)

(** A sentinel line is met in the reads, in the chunk-by-chunk reading of
    [pump]. *)
Definition sawSentinel (reads : list (list byte)) : bool :=
  snd (forLines (allLines reads)).

Module ApiRequest.

(** [hay.includes(needle)]. *)
Fixpoint includes (needle hay : jsstring) : bool :=
  startsWith needle hay
  || match hay with
     | [] => false
     | _ :: rest => includes needle rest
     end.

(** What [request] rejects with.  [code] is whatever the body's [code]
    member holds. *)
Inductive Rejection :=
| RejectApi (message : jsstring) (status : option N) (code : option JsValue)
| RejectNetwork (message : jsstring).

(** A response as [request] reads it: the response of [streamRequest] and
    its [content-type] header. *)
Record JsonResponse := mkJson {
  response : Response;
  contentType : option jsstring;   (* [response.headers.get('content-type')] *)
  jsonFailure : JsThrown           (* what [response.json()] rejects with,
                                      when [json response] is [None] *)
}.

Inductive Fetched :=
| Refused (e : JsThrown)            (* [fetch] rejects *)
| Answered (r : JsonResponse).

Definition unexpectedMessage : jsstring := lit "An unexpected error occurred".
Definition unreachableMessage : jsstring := lit "Unable to connect to the server".

(** What is thrown inside the [try] block of [request]: an [ApiError] built
    there, or anything else. *)
Inductive Raised :=
| RaisedApi (message : jsstring) (status : option N) (code : option JsValue)
| RaisedOther (e : JsThrown).

(** The [try] block of [request].  The [TypeError] of reading [detail] of
    [null] and the one of a message that cannot be converted carry the
    engine's text, which in no engine mentions "fetch". *)
Definition requestTry (f : Fetched) : Raised + JsValue :=
  match f with
  | Refused e => inl (RaisedOther e)
  | Answered r =>
      let response := response r in
      if negb (ok response) then
        let errorData :=
          match json response with
          | Some v => v
          | None => JObject []
          end in
        match getProperty errorData (lit "detail") with
        | None =>
            inl (RaisedOther
                   (OtherError (lit "TypeError")
                      (lit "Cannot read properties of null (reading 'detail')")))
        | Some detail =>
            let message :=
              match detail with
              | Some d =>
                  if truthy d then ToString d else Some (httpMessage response)
              | None => Some (httpMessage response)
              end in
            let code :=
              match getProperty errorData (lit "code") with
              | Some c => c
              | None => None
              end in
            match message with
            | Some m => inl (RaisedApi m (Some (status response)) code)
            | None => inl (RaisedOther conversionError)
            end
        end
      else
        let isJson :=
          match contentType r with
          | Some c => includes (lit "application/json") c
          | None => false
          end in
        if negb isJson then inr (JObject [])
        else
          match json response with
          | Some v => inr v
          | None => inl (RaisedOther (jsonFailure r))
          end
  end.

(** [error instanceof TypeError && error.message.includes('fetch')] *)
Definition isFetchTypeError (e : JsThrown) : bool :=
  match e with
  | OtherError name message =>
      Js.eqb name (lit "TypeError") && includes (lit "fetch") message
  | _ => false
  end.

(** [request], with its [catch]. *)
Definition request (f : Fetched) : Rejection + JsValue :=
  match requestTry f with
  | inl (RaisedApi message status code) => inl (RejectApi message status code)
  | inl (RaisedOther (ApiError message status code)) =>
      inl (RejectApi message status (option_map JString code))
  | inl (RaisedOther e) =>
      if isFetchTypeError e then inl (RejectNetwork unreachableMessage)
      else inl (RejectApi unexpectedMessage None None)
  | inr v => inr v
  end.

End ApiRequest.

Module StreamHelpers.

(** The three callbacks of [createStreamingMessageHandler]: [None] when
    the call returns, [Some e] when it throws [e]. *)
Record Callbacks := mkCallbacks {
  onToken : jsstring -> option JsThrown;
  onComplete : option JsThrown;
  onError : JsThrown -> option JsThrown
}.

(** What the handler does, in order. *)
Inductive Call :=
| CallOnToken (token : jsstring)
| CallOnComplete
| CallOnError (error : JsThrown)
| ReleaseLock.

(** [error instanceof Error] *)
Definition isError (e : JsThrown) : bool :=
  match e with NonError => false | _ => true end.

(** [error instanceof Error ? error : new Error('Streaming error')] *)
Definition asError (e : JsThrown) : JsThrown :=
  if isError e then e else OtherError (lit "Error") (lit "Streaming error").

(** The [for await] loop over [streamToAsyncGenerator(stream)]: the calls
    made and what the loop throws, if anything.  The lock is released in
    the generator's [finally], when the stream ends, when a read rejects
    and when the loop body throws. *)
Fixpoint forAwait (cb : Callbacks) (tokens : list jsstring) (e : StreamEnd)
  : list Call * option JsThrown :=
  match tokens with
  | [] =>
      match e with
      | Closed => ([ReleaseLock], None)
      | Errored error => ([ReleaseLock], Some error)
      end
  | token :: rest =>
      match onToken cb token with
      | Some error => ([CallOnToken token; ReleaseLock], Some error)
      | None =>
          let '(calls, thrown) := forAwait cb rest e in
          (CallOnToken token :: calls, thrown)
      end
  end.

(** The [catch] block of the handler. *)
Definition caught (cb : Callbacks) (error : JsThrown) : list Call * Outcome :=
  ([CallOnError (asError error)],
   match onError cb (asError error) with
   | None => Resolved
   | Some e => Rejected e
   end).

(** The function [createStreamingMessageHandler] returns.  [locked] is
    what [stream.getReader()] throws when the stream already has a reader,
    [None] when it has none: the throw comes before the generator's [try]
    is entered. *)
Definition handler (cb : Callbacks) (locked : option JsThrown)
    (stream : TokenStream) : list Call * Outcome :=
  match locked with
  | Some error => caught cb error
  | None =>
      let '(calls, thrown) := forAwait cb (fst stream) (snd stream) in
      match thrown with
      | Some error =>
          let '(more, out) := caught cb error in (calls ++ more, out)
      | None =>
          match onComplete cb with
          | None => (calls ++ [CallOnComplete], Resolved)
          | Some error =>
              let '(more, out) := caught cb error in
              (calls ++ CallOnComplete :: more, out)
          end
      end
  end.

Definition isRelease (c : Call) : bool :=
  match c with ReleaseLock => true | _ => false end.

Definition isTerminal (c : Call) : bool :=
  match c with CallOnComplete | CallOnError _ => true | _ => false end.

(** The tokens handed to [onToken], in order. *)
Fixpoint tokensOf (calls : list Call) : list jsstring :=
  match calls with
  | [] => []
  | CallOnToken t :: rest => t :: tokensOf rest
  | _ :: rest => tokensOf rest
  end.

(** Callbacks that never throw. *)
Definition quiet (cb : Callbacks) : Prop :=
  (forall t, onToken cb t = None)
  /\ onComplete cb = None
  /\ (forall e, onError cb e = None).

End StreamHelpers.

(* ================================================================== *)
(** * Observations on traces and transcripts *)
(* ================================================================== *)

(** Who wrote a message and when: its id, role and timestamp. *)
Definition header (m : Message) : jsstring * Role * jsstring :=
  (id m, role m, timestamp m).

Definition isInvalidate (e : Effect) : bool :=
  match e with InvalidateQueries _ => true | _ => false end.

Definition isRequest (e : Effect) : bool :=
  match e with ApiSendMessage _ _ => true | _ => false end.

Definition isAddMessage (e : Effect) : bool :=
  match e with AddMessage _ => true | _ => false end.

Definition isToast (e : Effect) : bool :=
  match e with ToastError _ => true | _ => false end.

(* ================================================================== *)
(** * [frontend/src/store/index.ts]: [appActions], [documentActions] *)
(* ================================================================== *)

Module AppActions.

(** [a === b] on [string | undefined]. *)
Definition sameId (a b : option jsstring) : bool :=
  match a, b with
  | None, None => true
  | Some x, Some y => Js.eqb x y
  | _, _ => false
  end.

(** [appActions.setCurrentConversation]: the assignment comes first, the
    comparison reads the store after it. *)
Definition setCurrentConversation (conversationId : option jsstring)
    (app : AppStore) (chat : ChatStore) : AppStore * ChatStore :=
  let app1 := mkApp conversationId (currentModelName app) in
  if negb (sameId conversationId (currentConversationId app1))
  then (app1, chatActions.clearMessages chat)
  else (app1, chat).

(** [appActions.setCurrentModel]; of [settings] only [model] is touched
    and it is passed beside the store. *)
Definition setCurrentModel (modelName : option jsstring)
    (app : AppStore) (settingsModel : jsstring) : AppStore * jsstring :=
  (mkApp (currentConversationId app) modelName,
   match modelName with
   | Some m => if Js.truthy m then m else settingsModel
   | None => settingsModel
   end).

End AppActions.

Module Documents.

Section WithFiles.

Variables File Document : Type.

(** [DocumentStore]; [uploadProgress] and [processingDocuments] are left
    out. *)
Record DocumentStore := mkDocs {
  uploadQueue : list File;
  isUploading : bool;
  lastUploadedDocument : option Document
}.

(** Where [Array.prototype.splice(index, ...)] starts on an array of
    length [len], for an integer [index]. *)
Definition spliceStart (len : nat) (index : Z) : nat :=
  if (index <? 0)%Z then Z.to_nat (Z.max (Z.of_nat len + index) 0)
  else Z.to_nat (Z.min index (Z.of_nat len)).

(** [l.splice(index, 1)], by what is left in [l]. *)
Definition splice1 (index : Z) (l : list File) : list File :=
  let start := spliceStart (List.length l) index in
  firstn start l ++ skipn (start + 1) l.

Definition addToUploadQueue (files : list File) (s : DocumentStore)
  : DocumentStore :=
  mkDocs (uploadQueue s ++ files) (isUploading s) (lastUploadedDocument s).

Definition removeFromUploadQueue (index : Z) (s : DocumentStore)
  : DocumentStore :=
  mkDocs (splice1 index (uploadQueue s)) (isUploading s)
         (lastUploadedDocument s).

Definition clearUploadQueue (s : DocumentStore) : DocumentStore :=
  mkDocs [] (isUploading s) (lastUploadedDocument s).

End WithFiles.

End Documents.

(* ================================================================== *)
(** * [frontend/src/lib/queries.ts]: keys and the other mutations *)
(* ================================================================== *)

Module QueryKeys.

(** The queries of [queryKeys]; an id is [undefined] when the hook is
    called before a conversation or document is chosen. *)
Inductive Query :=
| conversations
| conversation (id : option jsstring)
| models
| systemStatus
| documents
| document (id : option jsstring)
| searchStats
| tasks
| systemHealth.

(** The key of a query: an array of strings and [undefined]s. *)
Definition keyOf (q : Query) : list (option jsstring) :=
  match q with
  | conversations => [Some (lit "conversations")]
  | conversation id => [Some (lit "conversation"); id]
  | models => [Some (lit "models")]
  | systemStatus => [Some (lit "system"); Some (lit "status")]
  | documents => [Some (lit "documents")]
  | document id => [Some (lit "document"); id]
  | searchStats => [Some (lit "search"); Some (lit "stats")]
  | tasks => [Some (lit "tasks")]
  | systemHealth => [Some (lit "system"); Some (lit "health")]
  end.

(** [filter] matches [key] as a prefix, element by element. *)
Fixpoint matchesPrefix (filter key : list (option jsstring)) : bool :=
  match filter, key with
  | [], _ => true
  | f :: filter', k :: key' =>
      AppActions.sameId f k && matchesPrefix filter' key'
  | _ :: _, [] => false
  end.

End QueryKeys.

Module Mutations.

(** [useDeleteConversation]'s [onSuccess]: the keys invalidated and the
    stores afterwards. *)
Definition deleteOnSuccess (deletedId : jsstring)
    (app : AppStore) (chat : ChatStore)
  : list QueryKeys.Query * (AppStore * ChatStore) :=
  ([QueryKeys.conversations],
   AppActions.setCurrentConversation None app chat).

(** [useCreateConversation]'s [onSuccess]. *)
Definition createOnSuccess (newId : jsstring)
    (app : AppStore) (chat : ChatStore)
  : list QueryKeys.Query * (AppStore * ChatStore) :=
  ([QueryKeys.conversations],
   AppActions.setCurrentConversation (Some newId) app chat).

End Mutations.

(* ================================================================== *)
(** * [ChatInput.tsx] and [MessageList.tsx]: what is rendered *)
(* ================================================================== *)

Module Rendering.

(** [isDisabled] of [ChatInput]: the textarea and the attachment button. *)
Definition isDisabled (chat : ChatStore) (app : AppStore) : bool :=
  isStreaming chat || isLoading chat
  || negb (present (currentConversationId app)).

(** The [disabled] attribute of the send button. *)
Definition sendDisabled (chat : ChatStore) (app : AppStore) : bool :=
  isDisabled chat app || negb (Js.truthy (trim (inputValue chat))).

(** [MessageList]: the welcome text is shown when there is no message. *)
Definition showsWelcome (chat : ChatStore) : bool :=
  (List.length (messages chat) =? 0)%nat.

(** The [isStreaming] property of the message rendered at [index]. *)
Definition streamingAt (chat : ChatStore) (index : nat) (m : Message) : bool :=
  isStreaming chat
  && (index =? List.length (messages chat) - 1)%nat
  && isAssistant (role m).

(** [messages.map((message, index) => ...)], from index [i] on. *)
Fixpoint flagsFrom (chat : ChatStore) (i : nat) (l : list Message)
  : list bool :=
  match l with
  | [] => []
  | m :: rest => streamingAt chat i m :: flagsFrom chat (S i) rest
  end.

Definition streamingFlags (chat : ChatStore) : list bool :=
  flagsFrom chat 0 (messages chat).

End Rendering.

(* ================================================================== *)
(** * [ConversationList.tsx]: [groupedConversations] *)
(* ================================================================== *)

Module Grouping.

Section WithConversations.

Variable Conversation : Type.

(** [new Date(conv.updated_at).getTime()]: [None] for an invalid date. *)
Variable updated_at : Conversation -> option Z.

Record Groups := mkGroups {
  today : list Conversation;
  yesterday : list Conversation;
  lastWeek : list Conversation;
  older : list Conversation
}.

Definition day : Z := (24 * 60 * 60 * 1000)%Z.

(** [updatedAt >= bound]: false for an invalid date. *)
Definition atLeast (t : option Z) (bound : Z) : bool :=
  match t with
  | Some ms => (bound <=? ms)%Z
  | None => false
  end.

(** The body of the [forEach]; [todayStart] is local midnight. *)
Definition place (todayStart : Z) (groups : Groups) (conv : Conversation)
  : Groups :=
  let updatedAt := updated_at conv in
  if atLeast updatedAt todayStart then
    mkGroups (today groups ++ [conv]) (yesterday groups)
             (lastWeek groups) (older groups)
  else if atLeast updatedAt (todayStart - day)%Z then
    mkGroups (today groups) (yesterday groups ++ [conv])
             (lastWeek groups) (older groups)
  else if atLeast updatedAt (todayStart - 7 * day)%Z then
    mkGroups (today groups) (yesterday groups)
             (lastWeek groups ++ [conv]) (older groups)
  else
    mkGroups (today groups) (yesterday groups)
             (lastWeek groups) (older groups ++ [conv]).

Definition groupedConversations (todayStart : Z)
    (filteredConversations : list Conversation) : Groups :=
  fold_left (place todayStart) filteredConversations (mkGroups [] [] [] []).

(** The four windows, by the time of the last update. *)
Definition isToday (T : Z) (conv : Conversation) : bool :=
  atLeast (updated_at conv) T.
Definition isYesterday (T : Z) (conv : Conversation) : bool :=
  negb (atLeast (updated_at conv) T)
  && atLeast (updated_at conv) (T - day).
Definition isLastWeek (T : Z) (conv : Conversation) : bool :=
  negb (atLeast (updated_at conv) (T - day))
  && atLeast (updated_at conv) (T - 7 * day).
Definition isOlder (T : Z) (conv : Conversation) : bool :=
  negb (atLeast (updated_at conv) (T - 7 * day)).

End WithConversations.

End Grouping.

(* ================================================================== *)
(** * [frontend/src/lib/utils.ts] *)
(* ================================================================== *)

Module Utils.

(** [truncateText]; the text is taken by its UTF-16 code units, which is
    what [length] counts and [slice] cuts, and [maxLength] is an integer. *)
Definition sliceTo (n : Z) (text : list N) : list N :=
  let len := Z.of_nat (List.length text) in
  let stop := if (n <? 0)%Z then Z.max (len + n) 0 else Z.min n len in
  firstn (Z.to_nat stop) text.

Definition truncateText (text : list N) (maxLength : Z) : list N :=
  if (Z.of_nat (List.length text) <=? maxLength)%Z then text
  else sliceTo maxLength text ++ lit "...".

Section Throttle.

Variable Args : Type.

(** One call of the function [throttle(func, wait)] returns, at clock
    reading [now]: whether [func] was called, and [lastTime] afterwards. *)
Definition throttled (wait : Z) (lastTime : Z) (now : Z) : bool * Z :=
  if (wait <=? now - lastTime)%Z then (true, now) else (false, lastTime).

(** A sequence of calls, each with its clock reading: the calls that
    reached [func], in order. *)
Fixpoint throttleRun (wait : Z) (lastTime : Z) (calls : list (Z * Args))
  : list (Z * Args) :=
  match calls with
  | [] => []
  | (now, args) :: rest =>
      let '(fired, lastTime') := throttled wait lastTime now in
      if fired then (now, args) :: throttleRun wait lastTime' rest
      else throttleRun wait lastTime' rest
  end.

(** [throttle(func, wait)]: [lastTime] starts at 0. *)
Definition throttle (wait : Z) (calls : list (Z * Args)) : list (Z * Args) :=
  throttleRun wait 0 calls.

(** Consecutive entries are at least [wait] apart. *)
Fixpoint spaced (wait : Z) (l : list (Z * Args)) : Prop :=
  match l with
  | [] => True
  | (t1, _) :: rest =>
      match rest with
      | [] => True
      | (t2, _) :: _ => (wait <= t2 - t1)%Z
      end /\ spaced wait rest
  end.

End Throttle.

End Utils.

(* ================================================================== *)
(** * The store and the controller *)
(* ================================================================== *)

Section StoreFacts.

Lemma exec_app (t1 t2 : list Effect) (s : ChatStore) :
  exec (t1 ++ t2) s = exec t2 (exec t1 s).
Proof. unfold exec. apply fold_left_app. Qed.

Lemma lastOf_snoc (front : list Message) (m : Message) :
  lastOf (front ++ [m]) = Some m.
Proof.
  unfold lastOf. rewrite length_app. simpl.
  replace (List.length front + 1 - 1) with (List.length front) by lia.
  rewrite nth_error_app2 by lia.
  now rewrite Nat.sub_diag.
Qed.

Lemma lastOf_two (front : list Message) (a b : Message) :
  lastOf (front ++ [a; b]) = Some b.
Proof.
  change [a; b] with ([a] ++ [b]). rewrite app_assoc. apply lastOf_snoc.
Qed.

Lemma setLast_snoc (front : list Message) (m v : Message) :
  setLast v (front ++ [m]) = front ++ [v].
Proof.
  induction front as [|x front IH]; simpl; [reflexivity|].
  rewrite IH. destruct front; reflexivity.
Qed.

(** One token on a store whose last message is an assistant message. *)
Lemma appendToResponse_snoc (token : jsstring) (s : ChatStore)
    (front : list Message) (m : Message) :
  messages s = front ++ [m] ->
  role m = assistant ->
  chatActions.appendToResponse token s =
    mkChat (front ++ [withContent (currentResponse s ++ token) m])
           (isStreaming s) (currentResponse s ++ token)
           (isLoading s) (error s) (inputValue s) (isComposing s).
Proof.
  intros Hm Hr. unfold chatActions.appendToResponse. simpl.
  rewrite Hm, lastOf_snoc, Hr. simpl.
  now rewrite setLast_snoc.
Qed.

(** The reading loop: every token lands in the buffer, and the buffer in
    the last message. *)
Lemma exec_tokens (tokens : list jsstring) :
  forall (s : ChatStore) (front : list Message) (m : Message),
    messages s = front ++ [m] ->
    role m = assistant ->
    content m = currentResponse s ->
    exec (map AppendToResponse tokens) s =
      mkChat (front ++ [withContent (currentResponse s ++ Js.concat tokens) m])
             (isStreaming s) (currentResponse s ++ Js.concat tokens)
             (isLoading s) (error s) (inputValue s) (isComposing s).
Proof.
  induction tokens as [|t tokens IH]; intros s front m Hm Hr Hc.
  - simpl. rewrite app_nil_r. destruct s as [ms st cr ld er iv ic].
    simpl in *. subst. destruct m; reflexivity.
  - simpl. rewrite (appendToResponse_snoc t s front m Hm Hr).
    rewrite IH with (front := front)
                    (m := withContent (currentResponse s ++ t) m);
      try reflexivity; try assumption.
    simpl. unfold Js.concat. simpl. rewrite !app_assoc. reflexivity.
Qed.

Lemma exec_opening (env : Env) (data : SendMessageRequest) (s : ChatStore) :
  exec (opening env data) s =
    mkChat (messages s ++ [userMessage env data; assistantMessage env])
           true (currentResponse s) (isLoading s) None
           (inputValue s) (isComposing s).
Proof.
  unfold exec, opening. simpl.
  unfold chatActions.addMessage. simpl. now rewrite <- app_assoc.
Qed.

(** The store after [n] tokens, from a store whose buffer is empty. *)
Lemma inFlight_idle (env : Env) (c : jsstring) (data : SendMessageRequest)
    (tokens : list jsstring) (n : nat) (s : ChatStore) :
  currentResponse s = [] ->
  inFlight env c data tokens n s =
    mkChat (messages s ++
              [userMessage env data;
               withContent (Js.concat (firstn n tokens)) (assistantMessage env)])
           true (Js.concat (firstn n tokens)) (isLoading s) None
           (inputValue s) (isComposing s).
Proof.
  intros Hidle. unfold inFlight, upTo.
  rewrite !exec_app, exec_opening.
  change (exec [ApiSendMessage c data] ?x) with x.
  erewrite exec_tokens with
    (front := messages s ++ [userMessage env data]) (m := assistantMessage env).
  - simpl. rewrite Hidle. simpl. now rewrite <- app_assoc.
  - simpl. now rewrite <- app_assoc.
  - reflexivity.
  - simpl. now rewrite Hidle.
Qed.

(** Every send leaves the buffer empty, whatever it started from. *)
Lemma send_resets_buffer (env : Env) (c : jsstring)
    (data : SendMessageRequest) (sent : JsThrown + TokenStream)
    (s : ChatStore) :
  currentResponse (exec (fst (mutationFnOn env c data sent)) s) = [].
Proof.
  destruct sent as [e|[tokens [|e]]]; unfold mutationFnOn; cbn [fst];
    rewrite !exec_app; reflexivity.
Qed.

(** Between sends the buffer is empty. *)
Lemma after_idle (history : list Event) :
  currentResponse (after history) = [].
Proof.
  unfold after.
  induction history as [|ev history IH] using rev_ind; [reflexivity|].
  rewrite fold_left_app. simpl.
  destruct ev as [[v|l| |b|b]|env c data sent]; simpl; trivial.
  apply send_resets_buffer.
Qed.

(** A send, start to end, on a store whose buffer is empty. *)
Lemma send_idle (env : Env) (c : jsstring) (data : SendMessageRequest)
    (sent : JsThrown + TokenStream) (s : ChatStore) :
  currentResponse s = [] ->
  exec (fst (mutationFnOn env c data sent)) s =
    mkChat (messages s ++
              [userMessage env data;
               withContent (Js.concat (applied sent)) (assistantMessage env)])
           false [] (isLoading s)
           (match snd (mutationFnOn env c data sent) with
            | Resolved => None
            | Rejected e => Some (messageOr (lit "Failed to send message") e)
            end)
           (inputValue s) (isComposing s).
Proof.
  intros Hidle.
  assert (Hfl : forall tokens, exec (upTo env c data tokens (List.length tokens)) s
                 = inFlight env c data tokens (List.length tokens) s)
    by reflexivity.
  destruct sent as [e|[tokens [|e]]]; unfold mutationFnOn; cbn [fst snd applied].
  - change (opening env data ++ [ApiSendMessage c data] ++ catchBlock e)
      with (upTo env c data [] 0 ++ catchBlock e).
    rewrite exec_app. fold (inFlight env c data [] 0 s).
    rewrite inFlight_idle by assumption. reflexivity.
  - replace (opening env data ++ [ApiSendMessage c data]
               ++ map AppendToResponse tokens ++ completion c)
      with (upTo env c data tokens (List.length tokens) ++ completion c)
      by (unfold upTo; rewrite firstn_all, <- !app_assoc; reflexivity).
    rewrite exec_app, Hfl, inFlight_idle by assumption.
    rewrite firstn_all. reflexivity.
  - replace (opening env data ++ [ApiSendMessage c data]
               ++ map AppendToResponse tokens ++ catchBlock e)
      with (upTo env c data tokens (List.length tokens) ++ catchBlock e)
      by (unfold upTo; rewrite firstn_all, <- !app_assoc; reflexivity).
    rewrite exec_app, Hfl, inFlight_idle by assumption.
    rewrite firstn_all. reflexivity.
Qed.

End StoreFacts.

Section Decoder.

(** When the byte source ends, the stream is closed, sentinel or not. *)
Lemma pump_done_closed (reads : list (list byte)) :
  snd (pump reads SrcDone) = Closed.
Proof.
  induction reads as [|value rest IH]; simpl; [reflexivity|].
  destruct (forLines (split_nl (TextDecoder.decode value))) as [toks closed].
  destruct closed; [reflexivity|].
  destruct (pump rest SrcDone) as [more e]. simpl in *. assumption.
Qed.

End Decoder.

(* ================================================================== *)
(** * Token application *)
(* ================================================================== *)

(** The calls up to the n-th token are a prefix of the calls of the send. *)
Lemma upTo_prefix (env : Env) (c : jsstring) (data : SendMessageRequest)
    (tokens : list jsstring) (e : StreamEnd) (n : nat) :
  exists rest,
    fst (mutationFnOn env c data (inr (tokens, e)))
    = upTo env c data tokens n ++ rest.
Proof.
  unfold upTo.
  destruct e as [|err]; unfold mutationFnOn; cbn [fst].
  - exists (map AppendToResponse (skipn n tokens) ++ completion c).
    rewrite <- (firstn_skipn n tokens) at 1.
    rewrite map_app, <- !app_assoc. reflexivity.
  - exists (map AppendToResponse (skipn n tokens) ++ catchBlock err).
    rewrite <- (firstn_skipn n tokens) at 1.
    rewrite map_app, <- !app_assoc. reflexivity.
Qed.

Lemma firstn_plus (A : Type) (n k : nat) :
  forall l : list A, firstn (n + k) l = firstn n l ++ firstn k (skipn n l).
Proof.
  induction n as [|n IH]; intros l; [reflexivity|].
  destruct l as [|x l]; simpl.
  - now rewrite firstn_nil.
  - now rewrite IH.
Qed.

Lemma concat_firstn_grows (tokens : list jsstring) (n k : nat) :
  exists suffix,
    Js.concat (firstn (n + k) tokens) = Js.concat (firstn n tokens) ++ suffix.
Proof.
  exists (Js.concat (firstn k (skipn n tokens))).
  unfold Js.concat. rewrite <- concat_app. f_equal.
  apply firstn_plus.
Qed.

(** C2, refuted. A send that begins while the buffer holds the text of
    another send writes that text in front of its own tokens: after its
    one token "new" its placeholder reads "oldnew". And when the messages
    are replaced while a send is in flight, as [ChatPage] does when the
    conversation's data arrives, the placeholder is gone and the next token
    overwrites the answer that is then last. *)
Lemma C2_content_is_not_the_tokens_alone :
  currentResponse usedBuffer = lit "old"
  /\ lastOf (messages (inFlight envB convB dataB [lit "new"] 1 usedBuffer))
     = Some (withContent (lit "oldnew") (assistantMessage envB))
  /\ Js.concat (firstn 1 [lit "new"]) = lit "new"
  /\ messages
       (apply (AppendToResponse (lit "new"))
          (chatActions.setMessages loaded
             (inFlight envA convA dataA [lit "new"] 0 chatStore)))
     = [ mkMessage (lit "m-1") user (lit "earlier question") (lit "t-0");
         mkMessage (lit "m-2") assistant (lit "new") (lit "t-0") ].
Proof. repeat split. Qed.

(** C2, as the code has it. For every send that begins on a store whose
    buffer is empty, and for every n: once n tokens have been applied, with
    no other call on the store in between, the transcript is the earlier
    one followed by the user message and the assistant placeholder, whose
    content is the concatenation of the first n tokens in arrival order
    (the empty string for n = 0); the buffer holds the same text; these
    calls are a prefix of the calls of the whole send; and the content
    after n + k tokens extends the content after n tokens. The buffer is
    empty on every store reached between sends, and after every send,
    whatever store it began on. *)
Theorem C2_content_from_an_empty_buffer
    (s0 : ChatStore) (env : Env) (c : jsstring)
    (data : SendMessageRequest) (tokens : list jsstring) (n : nat) :
  currentResponse s0 = [] ->
  let s := inFlight env c data tokens n s0 in
  messages s = messages s0
                 ++ [userMessage env data;
                     withContent (Js.concat (firstn n tokens))
                                 (assistantMessage env)]
  /\ lastOf (messages s)
     = Some (withContent (Js.concat (firstn n tokens)) (assistantMessage env))
  /\ currentResponse s = Js.concat (firstn n tokens)
  /\ (forall e, exists rest,
        fst (mutationFnOn env c data (inr (tokens, e)))
        = upTo env c data tokens n ++ rest)
  /\ (forall k, exists later suffix,
        lastOf (messages (inFlight env c data tokens (n + k) s0))
        = Some later
        /\ content later = Js.concat (firstn n tokens) ++ suffix)
  /\ (forall history, currentResponse (after history) = [])
  /\ (forall sent,
        currentResponse (exec (fst (mutationFnOn env c data sent)) s0) = []).
Proof.
  intros Hidle s. subst s.
  rewrite inFlight_idle by exact Hidle. cbn [messages currentResponse].
  repeat split.
  - apply lastOf_two.
  - intros e. apply upTo_prefix.
  - intros k. destruct (concat_firstn_grows tokens n k) as [suffix Hs].
    exists (withContent (Js.concat (firstn (n + k) tokens))
                        (assistantMessage env)), suffix.
    rewrite inFlight_idle by exact Hidle. cbn [messages].
    split; [apply lastOf_two|exact Hs].
  - apply after_idle.
  - intros sent. apply send_resets_buffer.
Qed.

Lemma C2_content_witness :
  currentResponse chatStore = []
  /\ lastOf (messages
       (inFlight envA convA dataA [lit "Hel"; lit "lo"] 1 chatStore))
     = Some (withContent (Js.concat (firstn 1 [lit "Hel"; lit "lo"]))
                         (assistantMessage envA)).
Proof.
  split; [reflexivity|].
  exact (proj1 (proj2
           (C2_content_from_an_empty_buffer
              chatStore envA convA dataA [lit "Hel"; lit "lo"] 1 eq_refl))).
Defined.

(* ================================================================== *)
(** * Failure of a send *)
(* ================================================================== *)

Lemma clears_once (env : Env) (c : jsstring) (data : SendMessageRequest)
    (sent : JsThrown + TokenStream) :
  List.length (filter clearsStreaming (fst (mutationFnOn env c data sent))) = 1.
Proof.
  assert (Htok : forall tokens,
             filter clearsStreaming (map AppendToResponse tokens) = []).
  { induction tokens as [|t tokens IH]; simpl; auto. }
  destruct sent as [e|[tokens [|e]]]; unfold mutationFnOn; cbn [fst];
    rewrite !filter_app, ?Htok; reflexivity.
Qed.



(* ================================================================== *)
(** * Completion of a send *)
(* ================================================================== *)

(** C8. For every sequence of chunks after which the byte source ends,
    with or without a sentinel line: the decoder's output is finite and
    ends closed; the send resolves; and, from any store reached between
    sends, the indicator is cleared, no error is recorded and the assistant
    placeholder holds the concatenation of all tokens emitted. *)
Theorem C8_source_end_is_completion
    (history : list Event) (env : Env) (c : jsstring)
    (data : SendMessageRequest) (code : N) (reason : jsstring)
    (j : option JsValue) (reads : list (list byte)) :
  let net := FetchResolved
               (mkResponse true code reason j (Some (mkSource reads SrcDone))) in
  let tokens := fst (pump reads SrcDone) in
  let run := mutationFn env c data net in
  let s := exec (fst run) (after history) in
  pump reads SrcDone = (tokens, Closed)
  /\ snd run = Resolved
  /\ isStreaming s = false
  /\ error s = None
  /\ messages s = messages (after history)
                    ++ [userMessage env data;
                        withContent (Js.concat tokens) (assistantMessage env)].
Proof.
  intros net tokens run s. subst net tokens run s.
  pose proof (pump_done_closed reads) as Hc.
  unfold mutationFn, received, sendMessage, streamRequest, streamRequestTry.
  cbn [ok body negb chunks ending].
  destruct (pump reads SrcDone) as [tokens e]. cbn [fst snd] in *. subst e.
  cbn [readBy].
  rewrite send_idle by apply after_idle.
  repeat split.
Qed.

(** Example D: the connection closes after the token "foo". *)
Example exampleD :
  pump fooThenClose SrcDone = ([lit "foo"], Closed)
  /\ snd (mutationFn envA convA dataA
            (FetchResolved (okResponse (mkSource fooThenClose SrcDone))))
     = Resolved
  /\ lastOf (messages
       (exec (fst (mutationFn envA convA dataA
                     (FetchResolved (okResponse (mkSource fooThenClose SrcDone)))))
             chatStore))
     = Some (withContent (lit "foo") (assistantMessage envA)).
Proof. repeat split. Qed.

(** C10. [setStreaming(false)] empties [currentResponse] and leaves the
    messages as they are; every send calls it, on the completion path and
    on the error path alike; so after a send has ended the buffer is empty
    while the assistant message keeps the text written to it. *)
Theorem C10_setStreaming_false_empties_buffer :
  (forall s : ChatStore,
      currentResponse (chatActions.setStreaming false s) = []
      /\ messages (chatActions.setStreaming false s) = messages s
      /\ isStreaming (chatActions.setStreaming false s) = false)
  /\ (forall env c data sent,
        List.length
          (filter clearsStreaming (fst (mutationFnOn env c data sent))) = 1)
  /\ (forall history env c data sent,
        let s := exec (fst (mutationFnOn env c data sent)) (after history) in
        currentResponse s = []
        /\ lastOf (messages s)
           = Some (withContent (Js.concat (applied sent))
                               (assistantMessage env))).
Proof.
  split; [|split].
  - intros s. repeat split.
  - intros. apply clears_once.
  - intros history env c data sent s. subst s.
    rewrite send_idle by apply after_idle. cbn [currentResponse messages].
    split; [reflexivity|apply lastOf_two].
Qed.

(* ================================================================== *)
(** * Sends for different conversations *)
(* ================================================================== *)

(** C9, refuted. With sends for two different conversations in flight, a
    token applied for the first one is written into the placeholder of the
    second one and into the buffer, and the end of the first one clears
    the indicator the second one had set. *)
Lemma C9_sessions_share_the_store :
  convA <> convB
  /\ lastOf (messages bothInFlight) = Some (assistantMessage envB)
  /\ currentResponse bothInFlight = []
  /\ isStreaming bothInFlight = true
  /\ lastOf (messages (apply (AppendToResponse (lit "x")) bothInFlight))
     = Some (withContent (lit "x") (assistantMessage envB))
  /\ currentResponse (apply (AppendToResponse (lit "x")) bothInFlight)
     = lit "x"
  /\ isStreaming (exec (completion convA) bothInFlight) = false.
Proof. repeat split; discriminate. Qed.

Lemma removelast_setLast (v : Message) (l : list Message) :
  removelast (setLast v l) = removelast l.
Proof.
  induction l as [|m l IH]; [reflexivity|].
  destruct l as [|m' l]; [reflexivity|].
  change (setLast v (m :: m' :: l)) with (m :: setLast v (m' :: l)).
  change (removelast (m :: m' :: l)) with (m :: removelast (m' :: l)).
  rewrite <- IH. simpl. destruct l; reflexivity.
Qed.

Lemma lastOf_setLast (v m : Message) (l : list Message) :
  lastOf l = Some m -> lastOf (setLast v l) = Some v.
Proof.
  intros Hl.
  destruct (exists_last (l := l)) as [front [x Hx]].
  - intros ->. discriminate Hl.
  - subst l. rewrite setLast_snoc. apply lastOf_snoc.
Qed.

(** C9, as the code has it. There is one chat store for all sends: the
    calls a send makes on it are the same whatever the conversation id,
    which only reaches the request and the cache keys; a token, whichever
    send applies it, is appended to the one buffer and the buffer is
    written into the last message if that is an assistant message, while
    the earlier messages, the indicator, the error and the input stay as
    they are; and [setStreaming] leaves the messages as they are. *)
Theorem C9_one_store_for_every_conversation :
  (forall env c1 c2 data sent s,
      exec (fst (mutationFnOn env c1 data sent)) s
      = exec (fst (mutationFnOn env c2 data sent)) s)
  /\ (forall token s,
        let s' := chatActions.appendToResponse token s in
        currentResponse s' = currentResponse s ++ token
        /\ removelast (messages s') = removelast (messages s)
        /\ lastOf (messages s')
           = option_map
               (fun m => if isAssistant (role m)
                         then withContent (currentResponse s ++ token) m
                         else m)
               (lastOf (messages s))
        /\ isStreaming s' = isStreaming s
        /\ error s' = error s
        /\ inputValue s' = inputValue s)
  /\ (forall b s,
        messages (chatActions.setStreaming b s) = messages s
        /\ isStreaming (chatActions.setStreaming b s) = b).
Proof.
  split; [|split].
  - intros env c1 c2 data sent s.
    destruct sent as [e|[tokens [|e]]]; unfold mutationFnOn; cbn [fst];
      rewrite !exec_app; reflexivity.
  - intros token s s'. subst s'. unfold chatActions.appendToResponse.
    cbn [messages]. destruct (lastOf (messages s)) as [m|] eqn:Hl.
    + destruct (isAssistant (role m)) eqn:Hr;
        cbn [messages currentResponse isStreaming error inputValue option_map].
      * rewrite removelast_setLast, (@lastOf_setLast _ _ _ Hl), Hr.
        repeat split.
      * rewrite Hl, Hr. repeat split.
    + cbn [messages currentResponse isStreaming error inputValue].
      rewrite Hl. repeat split.
  - intros b s. split; reflexivity.
Qed.

(* ================================================================== *)
(** * The guard of [handleSubmit] *)
(* ================================================================== *)

(** C6, refuted. A submit with blank input, a submit while a response is
    streaming and a submit with no conversation selected all return
    without an error reaching the caller: the promise resolves and no
    toast is shown. *)
Lemma C6_refused_submit_raises_nothing :
  surfacesError
    (handleSubmit blankInput selectedA (always envA (FetchResolved exampleB)))
  = false
  /\ surfacesError
       (handleSubmit typedWhileStreaming selectedA
          (always envA (FetchResolved exampleB)))
     = false
  /\ surfacesError
       (handleSubmit typed noneSelected (always envA (FetchResolved exampleB)))
     = false
  /\ surfacesError
       (handleSubmit typed selectedA (always envA (FetchResolved exampleB)))
     = true.
Proof. repeat split. Qed.

(** C6, as the code has it. When the trimmed input is empty, or the
    store's [isStreaming] flag is set (one flag for all conversations), or
    no conversation is selected, [handleSubmit] returns at once: it makes
    no call at all, so no message is appended, the store is unchanged and
    no request goes out, and it reports nothing: its promise resolves and
    no toast is shown. *)
Theorem C6_refused_submit_is_silent
    (chat : ChatStore) (app : AppStore) (world : World) :
  Js.truthy (trim (inputValue chat)) = false
  \/ isStreaming chat = true
  \/ present (currentConversationId app) = false ->
  let r := handleSubmit chat app world in
  r = ([], Resolved)
  /\ exec (fst r) chat = chat
  /\ requested (fst r) = false
  /\ surfacesError r = false.
Proof.
  intros Hguard r.
  assert (Hr : r = ([], Resolved)).
  { subst r. unfold handleSubmit.
    destruct Hguard as [H|[H|H]]; rewrite H; cbn [negb orb];
      rewrite ?orb_true_r; reflexivity. }
  rewrite Hr. repeat split.
Qed.

Lemma C6_refused_submit_witness :
  (Js.truthy (trim (inputValue typedWhileStreaming)) = false
   \/ isStreaming typedWhileStreaming = true
   \/ present (currentConversationId selectedA) = false)
  /\ (let r := handleSubmit typedWhileStreaming selectedA
                 (always envA
                    (FetchResolved (okResponse (mkSource exampleA SrcDone)))) in
      r = ([], Resolved)
      /\ exec (fst r) typedWhileStreaming = typedWhileStreaming
      /\ requested (fst r) = false
      /\ surfacesError r = false).
Proof.
  split.
  - right; left; reflexivity.
  - apply (C6_refused_submit_is_silent typedWhileStreaming selectedA).
    right; left; reflexivity.
Defined.

(* ================================================================== *)
(** * The response classification of [streamRequest] *)
(* ================================================================== *)

(** A failure status never yields a stream. *)
Lemma streamRequest_failure_status (response : Response) :
  ok response = false ->
  exists e, streamRequest (FetchResolved response) = inl e.
Proof.
  intros Hok. unfold streamRequest, streamRequestTry. rewrite Hok.
  cbn [negb].
  destruct (getProperty _ _) as [detail|]; cbn [isApiError]; eauto.
  destruct (match detail with Some _ => _ | None => _ end);
    cbn [isApiError conversionError]; eauto.
Qed.

(** A body with a truthy [detail] member gives that member as message. *)
Lemma streamRequest_detail (response : Response)
    (members : list (jsstring * JsValue)) (d : JsValue) (text : jsstring) :
  ok response = false ->
  json response = Some (JObject members) ->
  lookup (lit "detail") members = Some d ->
  truthy d = true ->
  ToString d = Some text ->
  streamRequest (FetchResolved response)
  = inl (ApiError text (Some (status response)) None).
Proof.
  intros Hok Hj Hl Ht Hs. unfold streamRequest, streamRequestTry.
  rewrite Hok, Hj. cbn [negb getProperty]. rewrite Hl, Ht, Hs. reflexivity.
Qed.

(** A [detail] member that cannot be converted to a string: the
    [TypeError] of the constructor is caught and replaced, and the status
    is lost. *)
Lemma streamRequest_detail_throws (response : Response)
    (members : list (jsstring * JsValue)) (d : JsValue) :
  ok response = false ->
  json response = Some (JObject members) ->
  lookup (lit "detail") members = Some d ->
  truthy d = true ->
  ToString d = None ->
  streamRequest (FetchResolved response)
  = inl (NetworkError connectionMessage).
Proof.
  intros Hok Hj Hl Ht Hs. unfold streamRequest, streamRequestTry.
  rewrite Hok, Hj. cbn [negb getProperty]. rewrite Hl, Ht, Hs. reflexivity.
Qed.

(** A body that is not JSON gives the status line as message. *)
Lemma streamRequest_unparseable (response : Response) :
  ok response = false ->
  json response = None ->
  streamRequest (FetchResolved response)
  = inl (ApiError (httpMessage response) (Some (status response)) None).
Proof.
  intros Hok Hj. unfold streamRequest, streamRequestTry.
  rewrite Hok, Hj. reflexivity.
Qed.

(** A success status without a body. *)
Lemma streamRequest_no_body (response : Response) :
  ok response = true ->
  body response = None ->
  streamRequest (FetchResolved response)
  = inl (ApiError noBodyMessage None None).
Proof.
  intros Hok Hb. unfold streamRequest, streamRequestTry.
  rewrite Hok, Hb. reflexivity.
Qed.

(** Example B: the message is the [detail] member, no token is applied
    and the placeholder stays empty. *)
Example exampleB_fails :
  streamRequest (FetchResolved exampleB)
  = inl (ApiError (lit "model not loaded") (Some 500%N) None)
  /\ filter (fun e => match e with AppendToResponse _ => true | _ => false end)
            (fst (mutationFn envA convA dataA (FetchResolved exampleB))) = []
  /\ lastOf (messages
       (exec (fst (mutationFn envA convA dataA (FetchResolved exampleB)))
             chatStore))
     = Some (assistantMessage envA).
Proof. repeat split. Qed.

Example htmlBody_fails :
  streamRequest (FetchResolved htmlBody)
  = inl (ApiError (lit "HTTP 502: Bad Gateway") (Some 502%N) None).
Proof. reflexivity. Qed.

(** C4, at the input where the code departs from it. For status 500 with
    the JSON body [null]: the body parses, reading [detail] of [null]
    throws, the [catch] of [streamRequest] replaces the [TypeError], and
    the caller gets a [NetworkError] saying the connection failed, with
    neither a message member nor the status line in it. *)
Theorem C4_null_error_body :
  ok nullBody = false
  /\ json nullBody = Some JNull
  /\ streamRequest (FetchResolved nullBody)
     = inl (NetworkError (lit "Failed to establish streaming connection"))
  /\ streamRequest (FetchResolved nullBody)
     <> inl (ApiError (httpMessage nullBody) (Some (status nullBody)) None).
Proof. repeat split. discriminate. Qed.

(* ================================================================== *)
(** * Example A *)
(* ================================================================== *)

(** C3, refuted. On the three chunks of example A the decoder does not
    emit "Hello" and " World", and the assistant message does not end as
    "Hello World". *)
Lemma C3_exampleA_is_not_hello_world :
  fst (pump exampleA SrcDone) <> [lit "Hello"; lit " World"]
  /\ lastOf (messages
       (exec (fst (mutationFn envA convA dataA
                     (FetchResolved (okResponse (mkSource exampleA SrcDone)))))
             chatStore))
     <> Some (withContent (lit "Hello World") (assistantMessage envA)).
Proof. split; discriminate. Qed.

(** C3, as the code has it. Each chunk is decoded and split into lines on
    its own: the first chunk yields the token "Hel"; in the second, "lo"
    has no prefix and the payload of "data: " is empty; in the third,
    " World" has no prefix and the sentinel closes the stream. The tokens
    are ["Hel"], the send resolves with the indicator cleared and no error,
    and the assistant message ends as "Hel". *)
Theorem C3_exampleA_as_decoded :
  let run := mutationFn envA convA dataA
               (FetchResolved (okResponse (mkSource exampleA SrcDone))) in
  let s := exec (fst run) chatStore in
  map (fun value => forLines (split_nl (TextDecoder.decode value))) exampleA
  = [([lit "Hel"], false); ([], false); ([], true)]
  /\ pump exampleA SrcDone = ([lit "Hel"], Closed)
  /\ snd run = Resolved
  /\ isStreaming s = false
  /\ error s = None
  /\ messages s = [userMessage envA dataA;
                   withContent (lit "Hel") (assistantMessage envA)].
Proof. repeat split. Qed.

(* ================================================================== *)
(** * The frame decoder *)
(* ================================================================== *)

Section Lines.

Lemma eqb_eq (a : jsstring) : forall b, Js.eqb a b = true <-> a = b.
Proof.
  induction a as [|x a IH]; intros [|y b]; simpl; split;
    try discriminate; try reflexivity.
  - intros H. apply andb_prop in H as [Hx Hr].
    apply N.eqb_eq in Hx. apply IH in Hr. now subst.
  - intros H. injection H as -> ->.
    rewrite N.eqb_refl. simpl. now apply IH.
Qed.

Lemma forLines_cons (line : jsstring) (rest : list jsstring) :
  forLines (line :: rest) =
    if startsWith (lit "data: ") line then
      if Js.eqb (trim (slice 6 line)) (lit "[DONE]") then ([], true)
      else if Js.truthy (trim (slice 6 line)) then
        (trim (slice 6 line) :: fst (forLines rest), snd (forLines rest))
      else forLines rest
    else forLines rest.
Proof. cbn [forLines]. now destruct (forLines rest). Qed.

(** The loop over the lines of two pieces. *)
Lemma forLines_app (l1 l2 : list jsstring) :
  forLines (l1 ++ l2) =
    if snd (forLines l1) then (fst (forLines l1), true)
    else (fst (forLines l1) ++ fst (forLines l2), snd (forLines l2)).
Proof.
  induction l1 as [|line l1 IH].
  - simpl. now destruct (forLines l2).
  - cbn [app]. rewrite !forLines_cons.
    destruct (startsWith (lit "data: ") line); [|exact IH].
    destruct (Js.eqb (trim (slice 6 line)) (lit "[DONE]")); [reflexivity|].
    destruct (Js.truthy (trim (slice 6 line))); [|exact IH].
    rewrite IH. cbn [fst snd].
    now destruct (snd (forLines l1)).
Qed.

(** A sentinel line ends the loop; what follows it is not looked at. *)
Lemma forLines_sentinel (line : jsstring) (l1 l2 : list jsstring) :
  startsWith (lit "data: ") line = true ->
  trim (slice 6 line) = lit "[DONE]" ->
  forLines (l1 ++ line :: l2) = (fst (forLines l1), true).
Proof.
  intros Hp Hd. rewrite forLines_app.
  destruct (forLines l1) as [t1 c1]. cbn [fst snd].
  destruct c1; [reflexivity|].
  rewrite forLines_cons, Hp, Hd. cbn [Js.eqb fst snd].
  replace (Js.eqb (lit "[DONE]") (lit "[DONE]")) with true by reflexivity.
  cbn [fst snd]. now rewrite app_nil_r.
Qed.

Lemma forLines_no_sentinel (lines : list jsstring) :
  ~ In (lit "[DONE]") (fst (forLines lines)).
Proof.
  induction lines as [|line lines IH]; [simpl; tauto|].
  rewrite forLines_cons.
  destruct (startsWith (lit "data: ") line); [|exact IH].
  destruct (Js.eqb (trim (slice 6 line)) (lit "[DONE]")) eqn:Hd; [simpl; tauto|].
  destruct (Js.truthy (trim (slice 6 line))); [|exact IH].
  cbn [fst]. intros [H|H]; [|now apply IH].
  rewrite <- H in Hd.
  assert (Ht : Js.eqb (lit "[DONE]") (lit "[DONE]") = true) by reflexivity.
  congruence.
Qed.

(** [pump] is the loop over all the lines, chunk after chunk. *)
Lemma pump_allLines (reads : list (list byte)) (fin : SourceEnd) :
  pump reads fin =
    (fst (forLines (allLines reads)),
     if snd (forLines (allLines reads)) then Closed else endOf fin).
Proof.
  induction reads as [|value rest IH].
  - simpl. now destruct fin.
  - cbn [pump allLines flat_map]. fold (allLines rest).
    rewrite forLines_app.
    destruct (forLines (split_nl (TextDecoder.decode value))) as [toks closed].
    cbn [fst snd]. destruct closed; [reflexivity|].
    rewrite IH. reflexivity.
Qed.

Lemma allLines_app (r1 r2 : list (list byte)) :
  allLines (r1 ++ r2) = allLines r1 ++ allLines r2.
Proof. unfold allLines. apply flat_map_app. Qed.

End Lines.

(** C7, refuted. A sentinel line that a chunk boundary cuts is not seen:
    delivered whole, the bytes give the token "a" and the stream is closed
    at the sentinel; cut inside the sentinel, they give "a", the piece
    "[DO" and "b", and how the stream ends is left to the source. *)
Lemma C7_sentinel_cut_by_a_chunk_boundary :
  List.concat sentinelCut = sentinelWhole
  /\ pump [sentinelWhole] (SrcFail NonError) = ([lit "a"], Closed)
  /\ pump sentinelCut (SrcFail NonError)
     = ([lit "a"; lit "[DO"; lit "b"], Errored NonError)
  /\ pump sentinelCut SrcDone = ([lit "a"; lit "[DO"; lit "b"], Closed).
Proof. repeat split. Qed.

(** C7, as the code has it. For every sequence of chunks and every end of
    the source, no token emitted equals "[DONE]". And when the loop meets,
    among the lines of one chunk, a line that starts with "data: " and
    whose trimmed payload is "[DONE]", the stream is closed and its tokens
    are exactly those of the lines before that line: the lines after it in
    the same chunk, a trailing fragment included, and all later chunks are
    dropped. *)
Theorem C7_sentinel_is_never_a_token :
  (forall reads fin, ~ In (lit "[DONE]") (fst (pump reads fin)))
  /\ (forall before value later fin linesBefore line linesAfter,
        split_nl (TextDecoder.decode value)
        = linesBefore ++ line :: linesAfter ->
        startsWith (lit "data: ") line = true ->
        trim (slice 6 line) = lit "[DONE]" ->
        pump (before ++ value :: later) fin
        = (fst (forLines (allLines before ++ linesBefore)), Closed)).
Proof.
  split.
  - intros reads fin. rewrite pump_allLines. apply forLines_no_sentinel.
  - intros before value later fin linesBefore line linesAfter Hs Hp Hd.
    rewrite pump_allLines, allLines_app.
    change (allLines (value :: later))
      with (split_nl (TextDecoder.decode value) ++ allLines later).
    rewrite Hs, <- app_assoc, app_assoc. cbn [app].
    rewrite (@forLines_sentinel _ _ _ Hp Hd). reflexivity.
Qed.

Lemma C7_sentinel_witness :
  (split_nl (TextDecoder.decode
               (bytes "data: b" ++ LF ++ bytes "data: [DONE]" ++ LF
                  ++ bytes "data: c" ++ LF ++ bytes "data: d"))
   = [lit "data: b"] ++ lit "data: [DONE]" :: [lit "data: c"; lit "data: d"]
   /\ startsWith (lit "data: ") (lit "data: [DONE]") = true
   /\ trim (slice 6 (lit "data: [DONE]")) = lit "[DONE]")
  /\ pump ([bytes "data: a" ++ LF]
             ++ (bytes "data: b" ++ LF ++ bytes "data: [DONE]" ++ LF
                   ++ bytes "data: c" ++ LF ++ bytes "data: d")
             :: [bytes "data: e" ++ LF])
          (SrcFail NonError)
     = (fst (forLines (allLines [bytes "data: a" ++ LF] ++ [lit "data: b"])),
        Closed).
Proof.
  split; [repeat split|].
  apply (proj2 C7_sentinel_is_never_a_token
           [bytes "data: a" ++ LF]
           (bytes "data: b" ++ LF ++ bytes "data: [DONE]" ++ LF
              ++ bytes "data: c" ++ LF ++ bytes "data: d")
           [bytes "data: e" ++ LF] (SrcFail NonError)
           [lit "data: b"] (lit "data: [DONE]")
           [lit "data: c"; lit "data: d"]); reflexivity.
Defined.

(* ================================================================== *)
(** * Chunk boundaries *)
(* ================================================================== *)

Section DecoderFacts.

Import TextDecoder.

Lemma lead_wf (b : N) : wf (snd (lead b)).
Proof.
  unfold lead, wf.
  repeat match goal with
         | |- context [if ?c then _ else _] => destruct c
         end; simpl; lia.
Qed.

Lemma handler_wf (st : state) (b : N) : wf (snd (handler st b)).
Proof.
  unfold handler. destruct (bytes_needed st =? 0)%N; [apply lead_wf|].
  unfold continuation.
  destruct (_ && _).
  - destruct (_ =? _)%N; unfold wf; simpl; lia.
  - pose proof (lead_wf b) as H. destruct (lead b). exact H.
Qed.

(** A line feed brings the decoder back to its initial state. *)
Lemma handler_LF (st : state) :
  wf st -> exists out, handler st 10 = (out ++ [10%N], init).
Proof.
  intros Hwf. unfold handler.
  destruct (bytes_needed st =? 0)%N.
  - exists []. reflexivity.
  - unfold continuation.
    replace (lower_boundary st <=? 10)%N with false
      by (symmetry; apply N.leb_gt; unfold wf in Hwf; lia).
    exists [replacement]. reflexivity.
Qed.

Lemma run_LF (xs ys : list byte) :
  forall st, wf st ->
    exists out, run st (xs ++ [x0a]) = out ++ [10%N]
                /\ run st (xs ++ x0a :: ys) = out ++ 10%N :: run init ys.
Proof.
  induction xs as [|b xs IH]; intros st Hwf.
  - destruct (handler_LF st Hwf) as [out Hout].
    exists out. cbn [app run]. change (Byte.to_N x0a) with 10%N.
    rewrite Hout. cbn [run bytes_needed init N.eqb].
    rewrite app_nil_r, <- app_assoc. split; reflexivity.
  - cbn [app run].
    pose proof (handler_wf st (Byte.to_N b)) as Hwf'.
    destruct (handler st (Byte.to_N b)) as [out st']. cbn [snd] in Hwf'.
    destruct (IH st' Hwf') as [out' [H1 H2]].
    exists (out ++ out'). rewrite H1, H2, <- !app_assoc. split; reflexivity.
Qed.

Lemma endsWithLF_snoc (value : list byte) :
  endsWithLF value = true -> exists xs, value = xs ++ [x0a].
Proof.
  induction value as [|b value IH]; [discriminate|].
  destruct value as [|b' value].
  - simpl. intros H. exists []. simpl. f_equal.
    now apply Byte.byte_dec_bl.
  - intros H. destruct (IH H) as [xs Hxs]. exists (b :: xs).
    simpl. now rewrite <- Hxs.
Qed.

Lemma cont_value (a b : N) :
  N.lor (N.shiftl a 6) (N.land b 63) = (a * 64 + b mod 64)%N.
Proof.
  assert (H0 : N.land (N.shiftl a 6) (N.land b (N.ones 6)) = 0%N).
  { apply N.bits_inj_0. intros n. rewrite !N.land_spec.
    destruct (N.lt_ge_cases n 6) as [Hn|Hn].
    - now rewrite N.shiftl_spec_low.
    - now rewrite N.ones_spec_high, andb_false_r, andb_false_r. }
  change 63%N with (N.ones 6).
  rewrite <- N.lxor_lor, <- N.add_nocarry_lxor by exact H0.
  now rewrite N.shiftl_mul_pow2, N.land_ones.
Qed.

Lemma mod_split (n k : N) : k <> 0%N ->
  exists q r, n = (k * q + r)%N /\ (r < k)%N /\ (n mod k = r)%N.
Proof.
  intros Hk. exists (n / k)%N, (n mod k)%N. repeat split.
  - apply N.div_mod. exact Hk.
  - now apply N.mod_lt.
Qed.

Ltac split_mod n k :=
  let q := fresh "q" in let r := fresh "r" in
  let E := fresh "E" in let L := fresh "L" in let M := fresh "M" in
  destruct (mod_split n k ltac:(discriminate)) as [q [r [E [L M]]]];
  rewrite ?M in *.

Lemma to_N_inj (b : byte) (n : N) (c : byte) :
  Byte.to_N b = n -> Byte.of_N n = Some c -> b = c.
Proof.
  intros <-. rewrite Byte.of_to_N. congruence.
Qed.

Lemma run_head_BOM (c : list byte) :
  headBOM (run init c) = true -> startsWithBOM c = true.
Proof.
  destruct c as [|b1 r1]; [discriminate|].
  cbn [run]. unfold handler. cbn [bytes_needed init N.eqb].
  remember (Byte.to_N b1) as n1 eqn:E1.
  unfold lead.
  destruct (n1 <=? 127)%N eqn:C1.
  { cbn [app headBOM]. intros H. apply N.eqb_eq in H. apply N.leb_le in C1. lia. }
  destruct ((194 <=? n1) && (n1 <=? 223))%N eqn:C2.
  { cbn [app]. destruct r1 as [|b2 r2]; [discriminate|].
    cbn [run]. unfold handler. cbn [bytes_needed N.eqb].
    unfold continuation. cbn [lower_boundary upper_boundary code_point bytes_seen bytes_needed].
    destruct ((_ <=? Byte.to_N b2) && (Byte.to_N b2 <=? _))%N.
    - cbn [N.add N.eqb Pos.eqb app headBOM]. rewrite cont_value.
      change 31%N with (N.ones 5). rewrite N.land_ones.
      intros H. apply N.eqb_eq in H.
      split_mod n1 (2^5)%N. split_mod (Byte.to_N b2) 64%N. lia.
    - destruct (lead (Byte.to_N b2)). discriminate. }
  destruct ((224 <=? n1) && (n1 <=? 239))%N eqn:C3.
  { cbn [app]. destruct r1 as [|b2 r2]; [discriminate|].
    cbn [run]. unfold handler at 1. cbn [bytes_needed N.eqb].
    unfold continuation at 1. cbn [lower_boundary upper_boundary code_point bytes_seen bytes_needed].
    destruct ((_ <=? Byte.to_N b2) && (Byte.to_N b2 <=? _))%N eqn:R2.
    2:{ destruct (lead (Byte.to_N b2)). discriminate. }
    cbn [N.add N.eqb Pos.eqb app].
    destruct r2 as [|b3 r3]; [discriminate|].
    cbn [run]. unfold handler. cbn [bytes_needed N.eqb].
    unfold continuation. cbn [lower_boundary upper_boundary code_point bytes_seen bytes_needed].
    destruct ((_ <=? Byte.to_N b3) && (Byte.to_N b3 <=? _))%N eqn:R3.
    2:{ destruct (lead (Byte.to_N b3)). discriminate. }
    cbn [N.add Pos.add Pos.succ N.eqb Pos.eqb app headBOM].
    rewrite !cont_value.
    change 15%N with (N.ones 4). rewrite N.land_ones.
    intros H. apply N.eqb_eq in H.
    apply andb_prop in C3 as [C3a C3b]. apply N.leb_le in C3a, C3b.
    apply andb_prop in R2 as [R2a R2b]. apply N.leb_le in R2a, R2b.
    apply andb_prop in R3 as [R3a R3b]. apply N.leb_le in R3a, R3b.
    split_mod n1 (2^4)%N. split_mod (Byte.to_N b2) 64%N. split_mod (Byte.to_N b3) 64%N.
    assert (n1 = 239%N) by lia.
    assert (Hlo : (128 <= Byte.to_N b2)%N).
    { destruct (n1 =? 224)%N; lia. }
    assert (Hhi : (Byte.to_N b2 <= 191)%N).
    { destruct (n1 =? 237)%N; lia. }
    assert (Byte.to_N b2 = 187%N) by lia.
    assert (Byte.to_N b3 = 191%N) by lia.
    subst n1.
    rewrite (to_N_inj b1 239 xef), (to_N_inj b2 187 xbb), (to_N_inj b3 191 xbf); auto. }
  destruct ((240 <=? n1) && (n1 <=? 244))%N eqn:C4; [|discriminate].
  cbn [app]. destruct r1 as [|b2 r2]; [discriminate|].
  cbn [run]. unfold handler at 1. cbn [bytes_needed N.eqb].
  unfold continuation at 1.
  cbn [lower_boundary upper_boundary code_point bytes_seen bytes_needed].
  destruct ((_ <=? Byte.to_N b2) && (Byte.to_N b2 <=? _))%N eqn:R2.
  2:{ destruct (lead (Byte.to_N b2)). discriminate. }
  cbn [N.add N.eqb Pos.eqb app].
  destruct r2 as [|b3 r3]; [discriminate|].
  cbn [run]. unfold handler at 1. cbn [bytes_needed N.eqb].
  unfold continuation at 1.
  cbn [lower_boundary upper_boundary code_point bytes_seen bytes_needed].
  destruct ((_ <=? Byte.to_N b3) && (Byte.to_N b3 <=? _))%N eqn:R3.
  2:{ destruct (lead (Byte.to_N b3)). discriminate. }
  cbn [N.add Pos.add Pos.succ N.eqb Pos.eqb app].
  destruct r3 as [|b4 r4]; [discriminate|].
  cbn [run]. unfold handler. cbn [bytes_needed N.eqb].
  unfold continuation.
  cbn [lower_boundary upper_boundary code_point bytes_seen bytes_needed].
  destruct ((_ <=? Byte.to_N b4) && (Byte.to_N b4 <=? _))%N eqn:R4.
  2:{ destruct (lead (Byte.to_N b4)). discriminate. }
  cbn [N.add Pos.add Pos.succ N.eqb Pos.eqb app headBOM].
  rewrite !cont_value.
  change 7%N with (N.ones 3). rewrite N.land_ones.
  intros H. apply N.eqb_eq in H. exfalso.
  apply andb_prop in C4 as [C4a C4b]. apply N.leb_le in C4a, C4b.
  apply andb_prop in R2 as [R2a R2b]. apply N.leb_le in R2a, R2b.
  split_mod n1 (2^3)%N. split_mod (Byte.to_N b2) 64%N.
  split_mod (Byte.to_N b3) 64%N. split_mod (Byte.to_N b4) 64%N.
  destruct (n1 =? 240)%N eqn:F0.
  - apply N.eqb_eq in F0. destruct (n1 =? 244)%N; lia.
  - apply N.eqb_neq in F0. lia.
Qed.

Lemma stripBOM_no_head (s : jsstring) :
  headBOM s = false -> stripBOM s = s.
Proof.
  destruct s as [|c s]; [reflexivity|]. simpl. now intros ->.
Qed.

Lemma decode_no_BOM (c : list byte) :
  startsWithBOM c = false -> decode c = run init c.
Proof.
  intros H. apply stripBOM_no_head.
  destruct (headBOM (run init c)) eqn:Hh; [|reflexivity].
  apply run_head_BOM in Hh. congruence.
Qed.

Lemma split_nl_nonempty (s : jsstring) : split_nl s <> [].
Proof.
  induction s as [|c s IH]; simpl; [discriminate|].
  destruct (c =? 10)%N; [discriminate|].
  destruct (split_nl s); [contradiction|discriminate].
Qed.

Lemma split_nl_LF (x y : jsstring) :
  split_nl (x ++ 10%N :: y) = split_nl x ++ split_nl y.
Proof.
  induction x as [|c x IH]; [reflexivity|].
  cbn [app split_nl]. rewrite IH.
  destruct (c =? 10)%N; [reflexivity|].
  pose proof (split_nl_nonempty x) as Hne.
  destruct (split_nl x) as [|l ls]; [contradiction|reflexivity].
Qed.

(** A chunk that ends with a line feed, decoded alone and decoded with
    more bytes after it. *)
Lemma decode_LF (value more : list byte) :
  endsWithLF value = true ->
  exists text,
    decode value = text ++ [10%N]
    /\ decode (value ++ more) = text ++ 10%N :: run init more
    /\ headBOM (run init (value ++ more)) = headBOM (run init value).
Proof.
  intros H. destruct (endsWithLF_snoc _ H) as [xs ->].
  assert (Hwf : wf init) by (unfold wf; simpl; lia).
  destruct (@run_LF xs more init Hwf) as [out [H1 H2]].
  unfold decode. rewrite <- app_assoc. cbn [app]. rewrite H1, H2.
  destruct out as [|c out].
  - exists []. repeat split.
  - cbn [app stripBOM headBOM].
    destruct (c =? 65279)%N.
    + exists out. repeat split.
    + exists (c :: out). repeat split.
Qed.

Lemma forLines_blank (lines : list jsstring) :
  forLines (lines ++ [[]]) = forLines lines.
Proof.
  rewrite forLines_app. cbn [forLines startsWith lit].
  destruct (forLines lines) as [t c]. cbn [fst snd].
  destruct c; [reflexivity|]. now rewrite app_nil_r.
Qed.

Lemma allLines_cut (value : list byte) (rest : list (list byte)) :
  cutAfter value rest = true ->
  forLines (allLines (value :: rest))
  = forLines (split_nl (decode (List.concat (value :: rest))))
  /\ headBOM (run init (List.concat (value :: rest))) = headBOM (run init value).
Proof.
  revert value. induction rest as [|next rest IH]; intros value Hcut.
  - cbn [allLines flat_map List.concat]. rewrite !app_nil_r. split; reflexivity.
  - cbn [cutAfter] in Hcut.
    apply andb_prop in Hcut as [Hcut Hrest].
    apply andb_prop in Hcut as [Hlf Hbom].
    apply negb_true_iff in Hbom.
    destruct (IH next Hrest) as [IHlines IHhead].
    change (List.concat (value :: next :: rest))
      with (value ++ List.concat (next :: rest)).
    destruct (decode_LF value (List.concat (next :: rest)) Hlf)
      as [text [Hd1 [Hd2 Hd3]]].
    split; [|exact Hd3].
    change (allLines (value :: next :: rest))
      with (split_nl (decode value) ++ allLines (next :: rest)).
    rewrite Hd1, Hd2, !split_nl_LF.
    change (split_nl []) with [@nil N].
    assert (Hnext : decode (List.concat (next :: rest))
                    = run init (List.concat (next :: rest))).
    { apply stripBOM_no_head. rewrite IHhead.
      destruct (headBOM (run init next)) eqn:Hh; [|reflexivity].
      apply run_head_BOM in Hh. congruence. }
    rewrite <- Hnext.
    rewrite (forLines_app (split_nl text ++ [[]])), forLines_blank.
    rewrite (forLines_app (split_nl text)), IHlines. reflexivity.
Qed.

(** Chunks cut at line ends give what the bytes in one chunk give. *)
Lemma pump_cutAtLineEnds (reads : list (list byte)) (fin : SourceEnd) :
  cutAtLineEnds reads = true ->
  pump reads fin = pump [List.concat reads] fin.
Proof.
  intros Hcut. rewrite !pump_allLines.
  assert (H : forLines (allLines reads)
              = forLines (allLines [List.concat reads])).
  { destruct reads as [|value rest].
    - reflexivity.
    - destruct (allLines_cut value rest Hcut) as [Hl _]. rewrite Hl.
      cbn [allLines flat_map]. now rewrite app_nil_r. }
  now rewrite H.
Qed.

End DecoderFacts.

(** C1, refuted. The same bytes in different chunks give different
    tokens: the line "data: Hello" gives "Hello" in one chunk and "Hel"
    when cut after "Hel"; a line carrying U+00E9 gives it in one chunk and
    U+FFFD when cut inside the character; the line "data: X" gives "X" in
    one chunk and nothing one byte at a time; and a chunk that begins with
    a byte order mark loses it, so that its first line is taken as data. *)
Lemma C1_rechunking_changes_tokens :
  (List.concat helloCut = helloLine
   /\ pump [helloLine] SrcDone = ([lit "Hello"], Closed)
   /\ pump helloCut SrcDone = ([lit "Hel"], Closed))
  /\ (List.concat eAcuteCut = eAcuteLine
      /\ pump [eAcuteLine] SrcDone = ([[233%N]], Closed)
      /\ pump eAcuteCut SrcDone = ([[65533%N]], Closed))
  /\ (List.concat byteAtATime = bytes "data: X" ++ LF
      /\ pump [bytes "data: X" ++ LF] SrcDone = ([lit "X"], Closed)
      /\ pump byteAtATime SrcDone = ([], Closed))
  /\ (pump [List.concat markAfterCut] SrcDone = ([lit "a"], Closed)
      /\ pump markAfterCut SrcDone = ([lit "a"; lit "b"], Closed))
  /\ ~ (forall reads1 reads2 fin,
          List.concat reads1 = List.concat reads2 ->
          fst (pump reads1 fin) = fst (pump reads2 fin)).
Proof.
  repeat split.
  intros H. specialize (H helloCut [helloLine] SrcDone eq_refl).
  discriminate H.
Qed.

(** C1, as the code has it. The decoder keeps nothing from one chunk to
    the next. For every byte sequence and every two partitions of it into
    chunks in which each cut falls right after a line feed and not before
    a byte order mark, the tokens emitted, their order and the end of the
    stream are the same; in particular they are those of the bytes
    delivered as one chunk. *)
Theorem C1_chunks_cut_at_line_ends
    (reads1 reads2 : list (list byte)) (fin : SourceEnd) :
  cutAtLineEnds reads1 = true ->
  cutAtLineEnds reads2 = true ->
  List.concat reads1 = List.concat reads2 ->
  pump reads1 fin = pump reads2 fin
  /\ pump reads1 fin = pump [List.concat reads1] fin.
Proof.
  intros H1 H2 Heq.
  rewrite (pump_cutAtLineEnds reads1 fin H1).
  rewrite (pump_cutAtLineEnds reads2 fin H2), Heq. split; reflexivity.
Qed.

Lemma C1_chunks_cut_witness :
  cutAtLineEnds twoLines = true
  /\ cutAtLineEnds [List.concat twoLines] = true
  /\ List.concat twoLines = List.concat [List.concat twoLines]
  /\ pump twoLines SrcDone = pump [List.concat twoLines] SrcDone
  /\ pump twoLines SrcDone = pump [List.concat twoLines] SrcDone.
Proof.
  split; [reflexivity|]. split; [reflexivity|]. split; [reflexivity|].
  apply (C1_chunks_cut_at_line_ends twoLines [List.concat twoLines] SrcDone);
    reflexivity.
Defined.

Example twoLines_tokens :
  pump twoLines SrcDone = ([lit "Hello"; lit "World"], Closed).
Proof. reflexivity. Qed.

(* ================================================================== *)
(** * The shape of a token *)
(* ================================================================== *)

Section TokenShape.

Lemma trimStart_head (s : jsstring) :
  match trimStart s with
  | [] => True
  | c :: _ => isWhiteSpace c = false
  end.
Proof.
  induction s as [|c s IH]; simpl; [exact I|].
  destruct (isWhiteSpace c) eqn:Hc; [exact IH|exact Hc].
Qed.

Lemma trimStart_suffix (s : jsstring) :
  exists ws, s = ws ++ trimStart s.
Proof.
  induction s as [|c s [ws IH]]; simpl.
  - now exists [].
  - destruct (isWhiteSpace c).
    + exists (c :: ws). simpl. now rewrite <- IH.
    + now exists [].
Qed.

(** A trimmed string that is not empty begins and ends with a character
    that is not white space. *)
Lemma trim_ends (s : jsstring) :
  trim s <> [] ->
  exists c rest,
    trim s = c :: rest
    /\ isWhiteSpace c = false
    /\ isWhiteSpace (last (trim s) 0%N) = false.
Proof.
  unfold trim, trimEnd. intros Hne.
  pose proof (trimStart_head s) as Hhead.
  destruct (trimStart s) as [|c y] eqn:Hy; [now contradiction Hne|].
  pose proof (trimStart_head (rev (c :: y))) as Hlast.
  destruct (trimStart_suffix (rev (c :: y))) as [ws Hws].
  destruct (trimStart (rev (c :: y))) as [|d z] eqn:Hz;
    [now contradiction Hne|].
  assert (Hrev : c :: y = rev z ++ [d] ++ rev ws).
  { rewrite <- (rev_involutive (c :: y)), Hws, rev_app_distr.
    simpl. now rewrite <- app_assoc. }
  cbn [rev]. rewrite last_last.
  destruct (rev z) as [|c' r] eqn:Hr.
  - simpl in Hrev. injection Hrev as -> _.
    exists d, []. repeat split; assumption.
  - simpl in Hrev. injection Hrev as <- _.
    exists c, (r ++ [d]). repeat split; assumption.
Qed.

Lemma split_nl_no_LF (s : jsstring) :
  Forall (fun line => ~ In 10%N line) (split_nl s).
Proof.
  induction s as [|c s IH]; simpl.
  - constructor; [tauto|constructor].
  - destruct (c =? 10)%N eqn:Hc.
    + constructor; [tauto|exact IH].
    + destruct (split_nl s) as [|l ls]; [constructor; [|constructor]|].
      * simpl. intros [H|[]]. subst. discriminate Hc.
      * inversion IH as [|? ? Hl Hls]; subst. constructor; [|exact Hls].
        simpl. intros [H|H]; [subst; discriminate Hc|now apply Hl].
Qed.

Lemma trim_incl (s : jsstring) (c : N) : In c (trim s) -> In c s.
Proof.
  unfold trim, trimEnd. intros H. apply in_rev in H.
  destruct (trimStart_suffix (rev (trimStart s))) as [ws Hws].
  assert (H' : In c (rev (trimStart s))).
  { rewrite Hws. apply in_or_app. now right. }
  apply in_rev in H'.
  destruct (trimStart_suffix s) as [ws' Hws'].
  rewrite Hws'. apply in_or_app. now right.
Qed.

(** Where a token comes from. *)
Lemma forLines_origin (lines : list jsstring) (token : jsstring) :
  In token (fst (forLines lines)) ->
  exists line,
    In line lines
    /\ startsWith (lit "data: ") line = true
    /\ token = trim (slice 6 line)
    /\ token <> [].
Proof.
  induction lines as [|line lines IH]; [simpl; tauto|].
  rewrite forLines_cons.
  assert (Hrest : In token (fst (forLines lines)) ->
                  exists l, In l (line :: lines)
                            /\ startsWith (lit "data: ") l = true
                            /\ token = trim (slice 6 l) /\ token <> []).
  { intros H. destruct (IH H) as [l [Hin Hl]]. exists l. split; [now right|exact Hl]. }
  destruct (startsWith (lit "data: ") line) eqn:Hp; [|exact Hrest].
  destruct (Js.eqb (trim (slice 6 line)) (lit "[DONE]")); [simpl; tauto|].
  destruct (Js.truthy (trim (slice 6 line))) eqn:Ht; [|exact Hrest].
  cbn [fst]. intros [H|H]; [|now apply Hrest].
  exists line. repeat split; [now left|exact Hp|now symmetry|].
  subst token. destruct (trim (slice 6 line)); [discriminate Ht|discriminate].
Qed.

End TokenShape.

(** X1. Every token the decoder emits, for any chunks and any end of the
    source, is not empty, contains no line feed, and begins and ends with
    a character that is not white space: blanks at either end of a
    payload are lost. *)
Theorem X1_tokens_are_trimmed
    (reads : list (list byte)) (fin : SourceEnd) (token : jsstring) :
  In token (fst (pump reads fin)) ->
  (exists c rest, token = c :: rest /\ isWhiteSpace c = false)
  /\ isWhiteSpace (last token 0%N) = false
  /\ ~ In 10%N token.
Proof.
  rewrite pump_allLines. cbn [fst]. intros Hin.
  destruct (forLines_origin _ _ Hin) as [line [Hline [_ [Htok Hne]]]].
  subst token.
  destruct (trim_ends (slice 6 line) Hne) as [c [rest [E [Hc Hl]]]].
  split; [exists c, rest; now split|]. split; [exact Hl|].
  intros H10. apply trim_incl in H10.
  unfold allLines in Hline. apply in_flat_map in Hline as [value [_ Hv]].
  pose proof (split_nl_no_LF (TextDecoder.decode value)) as Hall.
  rewrite Forall_forall in Hall. apply (Hall line Hv).
  unfold slice in H10.
  rewrite <- (firstn_skipn 6 line). apply in_or_app. now right.
Qed.

Lemma X1_tokens_witness :
  In (lit "World") (fst (pump twoLines SrcDone))
  /\ (exists c rest, lit "World" = c :: rest /\ isWhiteSpace c = false)
  /\ isWhiteSpace (last (lit "World") 0%N) = false
  /\ ~ In 10%N (lit "World").
Proof.
  assert (H : In (lit "World") (fst (pump twoLines SrcDone)))
    by (right; left; reflexivity).
  split; [exact H|].
  exact (X1_tokens_are_trimmed twoLines SrcDone (lit "World") H).
Defined.

(* ================================================================== *)
(** * What [streamRequest] rejects with *)
(* ================================================================== *)

Lemma after_not_streaming (history : list Event) :
  isStreaming (after history) = false.
Proof.
  unfold after.
  induction history as [|ev history IH] using rev_ind; [reflexivity|].
  rewrite fold_left_app. simpl.
  destruct ev as [[v|l| |b|b]|env c data sent]; simpl; trivial.
  fold (after history). rewrite send_idle by apply after_idle. reflexivity.
Qed.

(** X2. [streamRequest] rejects only with an [ApiError] or with the
    [NetworkError] "Failed to establish streaming connection". Whatever
    else makes [fetch] reject is replaced by that [NetworkError]: the
    mutation then rejects with it and its message is the error recorded
    in the store, the cause being lost. *)
Theorem X2_streamRequest_rejections :
  (forall f,
      match streamRequest f with
      | inl e => isApiError e = true \/ e = NetworkError connectionMessage
      | inr _ => True
      end)
  /\ (forall history env c data cause,
        let run := mutationFn env c data (FetchRejected cause) in
        let reported :=
          if isApiError cause then cause
          else NetworkError connectionMessage in
        snd run = Rejected reported
        /\ error (exec (fst run) (after history))
           = Some (messageOr (lit "Failed to send message") reported)).
Proof.
  split.
  - intros f. unfold streamRequest.
    destruct (streamRequestTry f) as [err|stream]; [|exact I].
    destruct (isApiError err) eqn:Ha; auto.
  - intros history env c data cause run reported. subst run reported.
    unfold mutationFn, received, sendMessage, streamRequest, streamRequestTry.
    destruct (isApiError cause) eqn:Hc.
    + split; [reflexivity|].
      rewrite send_idle by apply after_idle. reflexivity.
    + split; [reflexivity|].
      rewrite send_idle by apply after_idle. reflexivity.
Qed.

(* ================================================================== *)
(** * [createStreamingMessageHandler] *)
(* ================================================================== *)

Section HandlerFacts.

Import StreamHelpers.

(** The loop calls [onToken] on a prefix of the tokens, then releases the
    lock, and throws only what a callback or the stream threw. *)
Lemma forAwait_shape (cb : Callbacks) (e : StreamEnd) (tokens : list jsstring) :
  exists n,
    fst (forAwait cb tokens e)
    = map CallOnToken (firstn n tokens) ++ [ReleaseLock].
Proof.
  induction tokens as [|t tokens [n IH]]; simpl.
  - exists 0. now destruct e.
  - destruct (onToken cb t).
    + now exists 1.
    + destruct (forAwait cb tokens e) as [calls thrown].
      exists (S n). simpl in *. now rewrite IH.
Qed.

Lemma forAwait_quiet (cb : Callbacks) (e : StreamEnd) (tokens : list jsstring) :
  (forall t, onToken cb t = None) ->
  forAwait cb tokens e
  = (map CallOnToken tokens ++ [ReleaseLock],
     match e with Closed => None | Errored error => Some error end).
Proof.
  intros Hq. induction tokens as [|t tokens IH]; simpl.
  - now destruct e.
  - rewrite Hq, IH. reflexivity.
Qed.

Lemma asError_isError (e : JsThrown) : isError (asError e) = true.
Proof. now destruct e. Qed.

End HandlerFacts.

(** X3. Whatever the callbacks do, the handler on a stream without a
    reader calls [onToken] on a prefix of the tokens in order, then
    releases the reader's lock exactly once, and only then calls
    [onComplete] or [onError] (one or both, [onError] last when both);
    [onError] always gets an [Error]; and the handler rejects only with
    what [onError] itself threw. *)
Theorem X3_handler_releases_then_reports
    (cb : StreamHelpers.Callbacks) (stream : TokenStream) :
  let run := StreamHelpers.handler cb None stream in
  (exists n reports,
      fst run = map StreamHelpers.CallOnToken (firstn n (fst stream))
                  ++ StreamHelpers.ReleaseLock :: reports
      /\ (reports = [StreamHelpers.CallOnComplete]
          \/ (exists e, StreamHelpers.isError e = true
                /\ (reports = [StreamHelpers.CallOnError e]
                    \/ reports = [StreamHelpers.CallOnComplete;
                                  StreamHelpers.CallOnError e]))))
  /\ List.length (filter StreamHelpers.isRelease (fst run)) = 1
  /\ match snd run with
     | Resolved => True
     | Rejected e => exists given, StreamHelpers.onError cb given = Some e
     end.
Proof.
  intros run. subst run. unfold StreamHelpers.handler.
  destruct (forAwait_shape cb (snd stream) (fst stream)) as [n Hn].
  destruct (StreamHelpers.forAwait cb (fst stream) (snd stream))
    as [calls thrown].
  cbn [fst] in Hn. subst calls.
  assert (Hcount : forall reports,
             forallb StreamHelpers.isTerminal reports = true ->
             List.length
               (filter StreamHelpers.isRelease
                  ((map StreamHelpers.CallOnToken (firstn n (fst stream))
                      ++ [StreamHelpers.ReleaseLock]) ++ reports)) = 1).
  { intros reports Hr. rewrite !filter_app, !length_app.
    assert (H1 : forall l, filter StreamHelpers.isRelease
                             (map StreamHelpers.CallOnToken l) = [])
      by (induction l; simpl; auto).
    assert (H2 : filter StreamHelpers.isRelease reports = []).
    { induction reports as [|r rs IH]; [reflexivity|].
      simpl in Hr. apply andb_prop in Hr as [Hr1 Hr2].
      destruct r; try discriminate; simpl; auto. }
    rewrite H1, H2. reflexivity. }
  destruct thrown as [error|].
  - unfold StreamHelpers.caught. cbn [fst snd]. split; [|split].
    + exists n, [StreamHelpers.CallOnError (StreamHelpers.asError error)].
      rewrite <- app_assoc. split; [reflexivity|].
      right. exists (StreamHelpers.asError error).
      split; [apply asError_isError|now left].
    + now apply Hcount.
    + destruct (StreamHelpers.onError cb (StreamHelpers.asError error))
        as [e'|] eqn:Ho; [|exact I].
      now exists (StreamHelpers.asError error).
  - destruct (StreamHelpers.onComplete cb) as [error|].
    + unfold StreamHelpers.caught. cbn [fst snd]. split; [|split].
      * exists n, [StreamHelpers.CallOnComplete;
                   StreamHelpers.CallOnError (StreamHelpers.asError error)].
        rewrite <- app_assoc. split; [reflexivity|].
        right. exists (StreamHelpers.asError error).
        split; [apply asError_isError|now right].
      * now apply Hcount.
      * destruct (StreamHelpers.onError cb (StreamHelpers.asError error))
          as [e'|] eqn:Ho; [|exact I].
        now exists (StreamHelpers.asError error).
    + cbn [fst snd]. split; [|split].
      * exists n, [StreamHelpers.CallOnComplete].
        rewrite <- app_assoc. split; [reflexivity|now left].
      * now apply Hcount.
      * exact I.
Qed.

(** X4. With callbacks that do not throw, the handler on a stream without
    a reader hands every token to [onToken] in order, releases the lock,
    and then calls [onComplete] if the stream closed, or [onError] with
    the stream's error (replaced by "Streaming error" if it is no
    [Error]) if it failed; never both, and the handler resolves. *)
Theorem X4_handler_with_quiet_callbacks
    (cb : StreamHelpers.Callbacks) (tokens : list jsstring) (e : StreamEnd) :
  StreamHelpers.quiet cb ->
  StreamHelpers.handler cb None (tokens, e)
  = (map StreamHelpers.CallOnToken tokens
       ++ [StreamHelpers.ReleaseLock;
           match e with
           | Closed => StreamHelpers.CallOnComplete
           | Errored error =>
               StreamHelpers.CallOnError (StreamHelpers.asError error)
           end],
     Resolved).
Proof.
  intros [Ht [Hc He]]. unfold StreamHelpers.handler. cbn [fst snd].
  rewrite (forAwait_quiet cb e tokens Ht).
  destruct e as [|error].
  - rewrite Hc, <- app_assoc. reflexivity.
  - unfold StreamHelpers.caught. rewrite He, <- app_assoc. reflexivity.
Qed.

Lemma X4_handler_witness :
  StreamHelpers.quiet
    (StreamHelpers.mkCallbacks (fun _ => None) None (fun _ => None))
  /\ StreamHelpers.handler
       (StreamHelpers.mkCallbacks (fun _ => None) None (fun _ => None))
       None ([lit "a"; lit "b"], Errored NonError)
     = (map StreamHelpers.CallOnToken [lit "a"; lit "b"]
          ++ [StreamHelpers.ReleaseLock;
              StreamHelpers.CallOnError (StreamHelpers.asError NonError)],
        Resolved).
Proof.
  split; [repeat split|].
  apply (X4_handler_with_quiet_callbacks
           (StreamHelpers.mkCallbacks (fun _ => None) None (fun _ => None))
           [lit "a"; lit "b"] (Errored NonError)).
  repeat split.
Defined.

(* ================================================================== *)
(** * Tokens on any store *)
(* ================================================================== *)

Section AnyStore.

Lemma setLast_headers (c : jsstring) (m : Message) (l : list Message) :
  lastOf l = Some m ->
  map header (setLast (withContent c m) l) = map header l.
Proof.
  intros Hl.
  destruct (exists_last (l := l)) as [front [x Hx]].
  - intros ->. discriminate Hl.
  - subst l. rewrite lastOf_snoc in Hl. injection Hl as ->.
    rewrite setLast_snoc, !map_app. reflexivity.
Qed.

Lemma appendToResponse_frame (token : jsstring) (s : ChatStore) :
  let s' := chatActions.appendToResponse token s in
  map header (messages s') = map header (messages s)
  /\ currentResponse s' = currentResponse s ++ token
  /\ isStreaming s' = isStreaming s
  /\ isLoading s' = isLoading s
  /\ error s' = error s
  /\ inputValue s' = inputValue s
  /\ isComposing s' = isComposing s.
Proof.
  unfold chatActions.appendToResponse. cbn [messages].
  destruct (lastOf (messages s)) as [m|] eqn:Hl; [|repeat split].
  destruct (isAssistant (role m)); [|repeat split].
  cbn. rewrite (setLast_headers _ m _ Hl). repeat split.
Qed.

Lemma exec_tokens_frame (tokens : list jsstring) :
  forall s : ChatStore,
    let s' := exec (map AppendToResponse tokens) s in
    map header (messages s') = map header (messages s)
    /\ currentResponse s' = currentResponse s ++ Js.concat tokens
    /\ isStreaming s' = isStreaming s
    /\ isLoading s' = isLoading s
    /\ error s' = error s
    /\ inputValue s' = inputValue s
    /\ isComposing s' = isComposing s.
Proof.
  induction tokens as [|t tokens IH]; intros s.
  - simpl. rewrite app_nil_r. repeat split.
  - cbn [map]. change (exec (AppendToResponse t :: ?l) s)
      with (exec l (chatActions.appendToResponse t s)).
    destruct (appendToResponse_frame t s) as [H1 [H2 [H3 [H4 [H5 [H6 H7]]]]]].
    destruct (IH (chatActions.appendToResponse t s))
      as [G1 [G2 [G3 [G4 [G5 [G6 G7]]]]]].
    cbv zeta in *.
    rewrite G1, G2, G3, G4, G5, G6, G7, H1, H2, H3, H4, H5, H6, H7.
    unfold Js.concat. simpl. rewrite <- app_assoc. repeat split.
Qed.

(** Tokens when the last message is not an assistant message. *)
Lemma exec_tokens_not_assistant (tokens : list jsstring) :
  forall s : ChatStore,
    match lastOf (messages s) with
    | Some m => isAssistant (role m) = false
    | None => True
    end ->
    exec (map AppendToResponse tokens) s
    = mkChat (messages s) (isStreaming s)
             (currentResponse s ++ Js.concat tokens)
             (isLoading s) (error s) (inputValue s) (isComposing s).
Proof.
  induction tokens as [|t tokens IH]; intros s Hlast.
  - simpl. rewrite app_nil_r. now destruct s.
  - cbn [map]. change (exec (AppendToResponse t :: ?l) s)
      with (exec l (chatActions.appendToResponse t s)).
    assert (Hstep : chatActions.appendToResponse t s
                    = mkChat (messages s) (isStreaming s)
                             (currentResponse s ++ t)
                             (isLoading s) (error s) (inputValue s)
                             (isComposing s)).
    { unfold chatActions.appendToResponse. cbn [messages].
      destruct (lastOf (messages s)) as [m|]; [|reflexivity].
      now rewrite Hlast. }
    rewrite Hstep, IH by exact Hlast. cbn.
    unfold Js.concat. simpl. now rewrite <- app_assoc.
Qed.

End AnyStore.

(** X5. Applying tokens, on any store and for any tokens, never adds,
    drops or reorders a message and never changes the id, role or
    timestamp of one; nor does it touch the streaming indicator, the
    error or the input: only the buffer grows by the tokens, in order. *)
Theorem X5_tokens_keep_the_transcript_shape
    (tokens : list jsstring) (s : ChatStore) :
  let s' := exec (map AppendToResponse tokens) s in
  map header (messages s') = map header (messages s)
  /\ List.length (messages s') = List.length (messages s)
  /\ currentResponse s' = currentResponse s ++ Js.concat tokens
  /\ isStreaming s' = isStreaming s
  /\ error s' = error s
  /\ inputValue s' = inputValue s.
Proof.
  intros s'. subst s'.
  destruct (exec_tokens_frame tokens s) as [H1 [H2 [H3 [_ [H5 [H6 _]]]]]].
  repeat split; try assumption.
  rewrite <- (length_map header), H1. apply length_map.
Qed.

(** X6. When the transcript is empty or its last message is not an
    assistant message (as after [setMessages] with a transcript that ends
    with a user message, or after [clearMessages]), tokens change no
    message at all: they only pile up in the buffer. *)
Theorem X6_tokens_without_a_placeholder
    (tokens : list jsstring) (s : ChatStore) :
  match lastOf (messages s) with
  | Some m => isAssistant (role m) = false
  | None => True
  end ->
  messages (exec (map AppendToResponse tokens) s) = messages s
  /\ currentResponse (exec (map AppendToResponse tokens) s)
     = currentResponse s ++ Js.concat tokens.
Proof.
  intros H. rewrite (exec_tokens_not_assistant tokens s H). split; reflexivity.
Qed.

Lemma X6_tokens_witness :
  match lastOf (messages (chatActions.clearMessages bothInFlight)) with
  | Some m => isAssistant (role m) = false
  | None => True
  end
  /\ messages (exec (map AppendToResponse [lit "a"; lit "b"])
                    (chatActions.clearMessages bothInFlight))
     = messages (chatActions.clearMessages bothInFlight)
  /\ currentResponse (exec (map AppendToResponse [lit "a"; lit "b"])
                           (chatActions.clearMessages bothInFlight))
     = currentResponse (chatActions.clearMessages bothInFlight)
         ++ Js.concat [lit "a"; lit "b"].
Proof.
  split; [exact I|].
  apply (X6_tokens_without_a_placeholder [lit "a"; lit "b"]
           (chatActions.clearMessages bothInFlight)).
  exact I.
Defined.

(** X7. A send that starts on a store whose buffer is not empty (another
    send is still in flight) has an empty placeholder until its first
    token; from the first token on, the placeholder holds the buffer it
    found followed by its own tokens. *)
Theorem X7_send_on_a_used_buffer
    (env : Env) (c : jsstring) (data : SendMessageRequest)
    (tokens : list jsstring) (n : nat) (s : ChatStore) :
  firstn n tokens <> [] ->
  lastOf (messages (inFlight env c data tokens 0 s))
  = Some (assistantMessage env)
  /\ lastOf (messages (inFlight env c data tokens n s))
     = Some (withContent (currentResponse s ++ Js.concat (firstn n tokens))
                         (assistantMessage env)).
Proof.
  intros Hne. unfold inFlight, upTo.
  rewrite !exec_app, exec_opening.
  change (exec [ApiSendMessage c data] ?x) with x.
  split.
  - simpl. apply lastOf_two.
  - destruct (firstn n tokens) as [|t rest]; [contradiction|].
    cbn [map]. change (exec (AppendToResponse t :: ?l) ?x)
      with (exec l (chatActions.appendToResponse t x)).
    rewrite (appendToResponse_snoc t _
               (messages s ++ [userMessage env data]) (assistantMessage env))
      by (simpl; rewrite <- ?app_assoc; reflexivity).
    erewrite exec_tokens with
      (front := messages s ++ [userMessage env data])
      (m := withContent (currentResponse s ++ t) (assistantMessage env));
      try reflexivity.
    cbn [messages currentResponse]. rewrite lastOf_snoc.
    unfold Js.concat. simpl. rewrite <- app_assoc. reflexivity.
Qed.

Lemma X7_send_witness :
  firstn 1 [lit "new"] <> []
  /\ lastOf (messages (inFlight envB convB dataB [lit "new"] 0
                         (apply (AppendToResponse (lit "old"))
                                (inFlight envA convA dataA [] 0 chatStore))))
     = Some (assistantMessage envB)
  /\ lastOf (messages (inFlight envB convB dataB [lit "new"] 1
                         (apply (AppendToResponse (lit "old"))
                                (inFlight envA convA dataA [] 0 chatStore))))
     = Some (withContent
               (currentResponse
                  (apply (AppendToResponse (lit "old"))
                         (inFlight envA convA dataA [] 0 chatStore))
                  ++ Js.concat (firstn 1 [lit "new"]))
               (assistantMessage envB)).
Proof.
  split; [discriminate|].
  apply (X7_send_on_a_used_buffer envB convB dataB [lit "new"] 1).
  discriminate.
Defined.

(* ================================================================== *)
(** * A send on any store *)
(* ================================================================== *)

Lemma filter_tokens (p : Effect -> bool) (tokens : list jsstring) :
  (forall t, p (AppendToResponse t) = false) ->
  filter p (map AppendToResponse tokens) = [].
Proof.
  intros Hp. induction tokens as [|t tokens IH]; simpl; [reflexivity|].
  now rewrite Hp.
Qed.

(** The calls of a send: the opening, the request, the tokens, the end. *)
Lemma mutationFnOn_trace (env : Env) (c : jsstring)
    (data : SendMessageRequest) (sent : JsThrown + TokenStream) :
  fst (mutationFnOn env c data sent)
  = opening env data ++ [ApiSendMessage c data]
      ++ map AppendToResponse (applied sent)
      ++ match failure sent with
         | None => completion c
         | Some e => catchBlock e
         end.
Proof. now destruct sent as [e|[tokens [|e]]]. Qed.

Lemma mutationFnOn_outcome (env : Env) (c : jsstring)
    (data : SendMessageRequest) (sent : JsThrown + TokenStream) :
  snd (mutationFnOn env c data sent)
  = match failure sent with
    | None => Resolved
    | Some e => Rejected e
    end.
Proof. now destruct sent as [e|[tokens [|e]]]. Qed.

(** X8. A send, on any store and whatever happens to it, leaves the
    streaming indicator cleared and the buffer empty; the error recorded
    is decided by this send alone (none if it resolved, the error's
    message if it failed, an earlier error being replaced either way);
    the loading flag and the composing flag are as before, the input too;
    and the transcript has exactly two more messages, the user message
    and the placeholder, after the messages it had, whose ids, roles and
    timestamps are as before. *)
Theorem X8_store_after_any_send
    (env : Env) (c : jsstring) (data : SendMessageRequest)
    (sent : JsThrown + TokenStream) (s : ChatStore) :
  let s' := exec (fst (mutationFnOn env c data sent)) s in
  isStreaming s' = false
  /\ currentResponse s' = []
  /\ error s'
     = match failure sent with
       | None => None
       | Some e => Some (messageOr (lit "Failed to send message") e)
       end
  /\ isLoading s' = isLoading s
  /\ isComposing s' = isComposing s
  /\ inputValue s' = inputValue s
  /\ map header (messages s')
     = map header (messages s)
         ++ [header (userMessage env data); header (assistantMessage env)].
Proof.
  intros s'. subst s'. rewrite mutationFnOn_trace.
  rewrite !exec_app, exec_opening.
  change (exec [ApiSendMessage c data] ?x) with x.
  match goal with
  | |- context [exec (map AppendToResponse ?t) ?x] =>
      destruct (exec_tokens_frame t x) as [H1 [H2 [H3 [H4 [H5 [H6 H7]]]]]];
      set (mid := exec (map AppendToResponse t) x) in *
  end.
  cbv zeta in *.
  cbn [messages isStreaming currentResponse isLoading error inputValue
       isComposing] in *.
  assert (Hh : map header (messages mid)
               = map header (messages s)
                   ++ [header (userMessage env data);
                       header (assistantMessage env)])
    by (rewrite H1, map_app; reflexivity).
  destruct (failure sent) as [e|]; unfold catchBlock, completion; cbn;
    rewrite H4, H6, H7, Hh, ?H5; repeat split.
Qed.

(** X9. The cache is invalidated exactly when the send resolves: then the
    conversation's own key and the list's key are invalidated, in this
    order, after the last token and after the indicator was cleared; a
    send that fails invalidates nothing. *)
Theorem X9_invalidation_follows_success
    (env : Env) (c : jsstring) (data : SendMessageRequest)
    (sent : JsThrown + TokenStream) :
  filter isInvalidate (fst (mutationFnOn env c data sent))
  = match snd (mutationFnOn env c data sent) with
    | Resolved => [InvalidateQueries [lit "conversation"; c];
                   InvalidateQueries [lit "conversations"]]
    | Rejected _ => []
    end
  /\ (snd (mutationFnOn env c data sent) = Resolved ->
      exists before,
        fst (mutationFnOn env c data sent)
        = before ++ [SetStreaming false;
                     InvalidateQueries [lit "conversation"; c];
                     InvalidateQueries [lit "conversations"]]).
Proof.
  rewrite mutationFnOn_trace, mutationFnOn_outcome.
  rewrite !filter_app, filter_tokens by reflexivity.
  destruct (failure sent) as [e|]; split; try reflexivity; try discriminate.
  intros _.
  exists (opening env data ++ [ApiSendMessage c data]
            ++ map AppendToResponse (applied sent)).
  now rewrite <- !app_assoc.
Qed.

Lemma X9_invalidation_witness :
  snd (mutationFnOn envA convA dataA (inr ([lit "a"], Closed))) = Resolved
  /\ exists before,
       fst (mutationFnOn envA convA dataA (inr ([lit "a"], Closed)))
       = before ++ [SetStreaming false;
                    InvalidateQueries [lit "conversation"; convA];
                    InvalidateQueries [lit "conversations"]].
Proof.
  split; [reflexivity|].
  apply (proj2 (X9_invalidation_follows_success
                  envA convA dataA (inr ([lit "a"], Closed)))).
  reflexivity.
Defined.

(* ================================================================== *)
(** * Retried sends *)
(* ================================================================== *)

Lemma mutationFnOn_requests (env : Env) (c : jsstring)
    (data : SendMessageRequest) (sent : JsThrown + TokenStream) :
  filter isRequest (fst (mutationFnOn env c data sent))
  = [ApiSendMessage c data].
Proof.
  rewrite mutationFnOn_trace.
  rewrite !filter_app, !filter_tokens by reflexivity.
  now destruct (failure sent).
Qed.

Lemma mutationFnOn_additions (env : Env) (c : jsstring)
    (data : SendMessageRequest) (sent : JsThrown + TokenStream) :
  filter isAddMessage (fst (mutationFnOn env c data sent))
  = [AddMessage (userMessage env data); AddMessage (assistantMessage env)].
Proof.
  rewrite mutationFnOn_trace.
  rewrite !filter_app, !filter_tokens by reflexivity.
  now destruct (failure sent).
Qed.

Lemma mutationFnOn_toasts (env : Env) (c : jsstring)
    (data : SendMessageRequest) (sent : JsThrown + TokenStream) :
  filter isToast (fst (mutationFnOn env c data sent)) = [].
Proof.
  rewrite mutationFnOn_trace.
  rewrite !filter_app, !filter_tokens by reflexivity.
  now destruct (failure sent).
Qed.

(** [retry] allows a second and a third run, never a fourth. *)
Lemma retry_bound (failureCount : nat) (e : JsThrown) :
  retry failureCount e = true -> failureCount < 2.
Proof.
  unfold retry. intros H. apply Nat.ltb_lt.
  destruct (statusOf e) as [st|]; [|exact H].
  destruct ((st =? 404)%N || (st =? 401)%N); [discriminate H|exact H].
Qed.

Section RetryFacts.

Variables (world : World) (c : jsstring) (data : SendMessageRequest).

Lemma runAt_outcome (i : nat) :
  snd (runAt world c data i)
  = match failure (sentAt world c data i) with
    | None => Resolved
    | Some e => Rejected e
    end.
Proof. apply mutationFnOn_outcome. Qed.

(** One run, and the runs that follow it. *)
Lemma runs_step (more k : nat) :
  runs more k world c data
  = match failure (sentAt world c data k) with
    | None => (fst (runAt world c data k), Resolved)
    | Some e =>
        if retry k e then
          match more with
          | S more' =>
              (fst (runAt world c data k)
                 ++ fst (runs more' (S k) world c data),
               snd (runs more' (S k) world c data))
          | O => (fst (runAt world c data k), Rejected e)
          end
        else (fst (runAt world c data k), Rejected e)
    end.
Proof.
  pose proof (runAt_outcome k) as Ho.
  destruct more as [|more']; cbn [runs]; cbv zeta;
    change (mutationFn (fst (world k)) c data (snd (world k)))
      with (runAt world c data k);
    destruct (runAt world c data k) as [trace out]; cbn [fst snd] in *;
    destruct (failure (sentAt world c data k)) as [e|]; subst out;
    try reflexivity.
  destruct (retry k e); [|reflexivity].
  now destruct (runs more' (S k) world c data).
Qed.

(** The bound on the runs is never what stops them. *)
Lemma runs_enough (more k : nat) :
  2 <= k + more ->
  runs (S more) k world c data = runs more k world c data.
Proof.
  revert k. induction more as [|more IH]; intros k Hk.
  - rewrite (runs_step 1 k), (runs_step 0 k).
    destruct (failure (sentAt world c data k)) as [e|]; [|reflexivity].
    destruct (retry k e) eqn:Hr; [|reflexivity].
    apply retry_bound in Hr. lia.
  - rewrite (runs_step (S (S more)) k), (runs_step (S more) k).
    destruct (failure (sentAt world c data k)) as [e|]; [|reflexivity].
    destruct (retry k e); [|reflexivity].
    rewrite IH by lia. reflexivity.
Qed.

(** The runs of a submit, case by case. *)
Lemma mutateAsync_cases :
  mutateAsync world c data
  = match failure (sentAt world c data 0) with
    | None => (fst (runAt world c data 0), Resolved)
    | Some e0 =>
        if retry 0 e0 then
          match failure (sentAt world c data 1) with
          | None =>
              (fst (runAt world c data 0) ++ fst (runAt world c data 1),
               Resolved)
          | Some e1 =>
              if retry 1 e1 then
                (fst (runAt world c data 0) ++ fst (runAt world c data 1)
                   ++ fst (runAt world c data 2),
                 snd (runAt world c data 2))
              else
                (fst (runAt world c data 0) ++ fst (runAt world c data 1),
                 Rejected e1)
          end
        else (fst (runAt world c data 0), Rejected e0)
    end.
Proof.
  unfold mutateAsync. rewrite (runs_step 2 0).
  destruct (failure (sentAt world c data 0)) as [e0|]; [|reflexivity].
  destruct (retry 0 e0); [|reflexivity].
  rewrite (runs_step 1 1).
  destruct (failure (sentAt world c data 1)) as [e1|]; [|reflexivity].
  destruct (retry 1 e1); [|reflexivity].
  rewrite (runs_step 0 2). cbn [fst snd].
  rewrite runAt_outcome.
  destruct (failure (sentAt world c data 2)) as [e2|]; [|reflexivity].
  destruct (retry 2 e2) eqn:Hr; [|reflexivity].
  apply retry_bound in Hr. lia.
Qed.

(** The number of runs of a submit. *)
Lemma mutateAsync_requests :
  filter isRequest (fst (mutateAsync world c data))
  = repeat (ApiSendMessage c data)
      match failure (sentAt world c data 0) with
      | None => 1
      | Some e0 =>
          if retry 0 e0 then
            match failure (sentAt world c data 1) with
            | None => 2
            | Some e1 => if retry 1 e1 then 3 else 2
            end
          else 1
      end.
Proof.
  rewrite mutateAsync_cases. unfold runAt, mutationFn.
  destruct (failure (sentAt world c data 0)) as [e0|];
    [destruct (retry 0 e0);
     [destruct (failure (sentAt world c data 1)) as [e1|];
      [destruct (retry 1 e1)|]|]|];
    cbn [fst]; rewrite ?filter_app, !mutationFnOn_requests; reflexivity.
Qed.

Lemma mutateAsync_additions :
  List.length (filter isAddMessage (fst (mutateAsync world c data)))
  = 2 * List.length (filter isRequest (fst (mutateAsync world c data))).
Proof.
  rewrite mutateAsync_cases. unfold runAt, mutationFn.
  destruct (failure (sentAt world c data 0)) as [e0|];
    [destruct (retry 0 e0);
     [destruct (failure (sentAt world c data 1)) as [e1|];
      [destruct (retry 1 e1)|]|]|];
    cbn [fst];
    rewrite ?filter_app, !mutationFnOn_requests, !mutationFnOn_additions;
    reflexivity.
Qed.

Lemma mutateAsync_toasts :
  filter isToast (fst (mutateAsync world c data)) = [].
Proof.
  rewrite mutateAsync_cases. unfold runAt, mutationFn.
  destruct (failure (sentAt world c data 0)) as [e0|];
    [destruct (retry 0 e0);
     [destruct (failure (sentAt world c data 1)) as [e1|];
      [destruct (retry 1 e1)|]|]|];
    cbn [fst]; rewrite ?filter_app, !mutationFnOn_toasts; reflexivity.
Qed.

(** The first run is always made. *)
Lemma mutateAsync_head :
  exists later,
    fst (mutateAsync world c data) = fst (runAt world c data 0) ++ later.
Proof.
  rewrite mutateAsync_cases.
  destruct (failure (sentAt world c data 0)) as [e0|];
    [destruct (retry 0 e0);
     [destruct (failure (sentAt world c data 1)) as [e1|];
      [destruct (retry 1 e1)|]|]|];
    cbn [fst]; eexists; try reflexivity; symmetry; apply app_nil_r.
Qed.

End RetryFacts.

(** X10. Every run of the mutation makes exactly one request and adds
    exactly two messages, the user message and then the placeholder, both
    before the request goes out; nothing a run does afterwards adds a
    message. A submit runs the mutation once if the first run resolves or
    fails with status 401 or 404, and otherwise again, up to three runs in
    all: every run sends the same request, the transcript gains two
    messages per run, and a larger bound on the runs changes nothing. *)
Theorem X10_one_request_two_messages
    (env : Env) (c : jsstring) (data : SendMessageRequest)
    (sent : JsThrown + TokenStream) (world : World) :
  filter isRequest (fst (mutationFnOn env c data sent))
  = [ApiSendMessage c data]
  /\ filter isAddMessage (fst (mutationFnOn env c data sent))
     = [AddMessage (userMessage env data); AddMessage (assistantMessage env)]
  /\ (exists later,
       fst (mutationFnOn env c data sent)
       = [SetStreaming true; SetError None;
          AddMessage (userMessage env data);
          AddMessage (assistantMessage env);
          ApiSendMessage c data] ++ later
       /\ filter isAddMessage later = []
       /\ filter isRequest later = [])
  /\ filter isRequest (fst (mutateAsync world c data))
     = repeat (ApiSendMessage c data)
         match failure (sentAt world c data 0) with
         | None => 1
         | Some e0 =>
             if retry 0 e0 then
               match failure (sentAt world c data 1) with
               | None => 2
               | Some e1 => if retry 1 e1 then 3 else 2
               end
             else 1
         end
  /\ List.length (filter isAddMessage (fst (mutateAsync world c data)))
     = 2 * List.length (filter isRequest (fst (mutateAsync world c data)))
  /\ (forall more, runs (2 + more) 0 world c data = mutateAsync world c data).
Proof.
  split; [apply mutationFnOn_requests|].
  split; [apply mutationFnOn_additions|].
  split; [|split; [apply mutateAsync_requests|
                   split; [apply mutateAsync_additions|]]].
  - rewrite mutationFnOn_trace.
    exists (map AppendToResponse (applied sent)
              ++ match failure sent with
                 | None => completion c
                 | Some e => catchBlock e
                 end).
    rewrite !filter_app, !filter_tokens by reflexivity.
    repeat split; now destruct (failure sent).
  - intros more. unfold mutateAsync.
    induction more as [|more IH]; [reflexivity|].
    rewrite <- IH. apply runs_enough. lia.
Qed.

(* ================================================================== *)
(** * Switching and deleting conversations *)
(* ================================================================== *)

Lemma eqb_refl (a : jsstring) : Js.eqb a a = true.
Proof. now apply eqb_eq. Qed.

Lemma sameId_eq (a b : option jsstring) :
  AppActions.sameId a b = true <-> a = b.
Proof.
  destruct a as [x|], b as [y|]; simpl; split; try discriminate; auto.
  - intros H. apply eqb_eq in H. now subst.
  - intros H. injection H as ->. apply eqb_refl.
Qed.

Lemma setCurrentConversation_keeps
    (conversationId : option jsstring) (app : AppStore) (chat : ChatStore) :
  AppActions.setCurrentConversation conversationId app chat
  = (mkApp conversationId (currentModelName app), chat).
Proof.
  unfold AppActions.setCurrentConversation. cbn [currentConversationId].
  now rewrite (proj2 (sameId_eq conversationId conversationId) eq_refl).
Qed.

(** X11. [setCurrentConversation] never clears the chat: for every id,
    also one that differs from the conversation selected so far, it
    stores the id, keeps the model name, and leaves the transcript, the
    buffer, the streaming indicator and the error as they are. *)
Theorem X11_switching_keeps_the_chat
    (conversationId : option jsstring) (app : AppStore) (chat : ChatStore) :
  AppActions.setCurrentConversation conversationId app chat
  = (mkApp conversationId (currentModelName app), chat).
Proof. apply setCurrentConversation_keeps. Qed.

(** X12. After a conversation was deleted, no conversation is selected,
    whether or not the deleted one was the selected one; and neither
    after a deletion nor after a creation is the transcript on screen
    changed: the messages of the conversation left behind stay in the
    chat store. Both invalidate the list of conversations only. *)
Theorem X12_delete_clears_selection_only
    (someId : jsstring) (app : AppStore) (chat : ChatStore) :
  Mutations.deleteOnSuccess someId app chat
  = ([QueryKeys.conversations], (mkApp None (currentModelName app), chat))
  /\ Mutations.createOnSuccess someId app chat
     = ([QueryKeys.conversations],
        (mkApp (Some someId) (currentModelName app), chat)).
Proof.
  unfold Mutations.deleteOnSuccess, Mutations.createOnSuccess.
  now rewrite !setCurrentConversation_keeps.
Qed.

(* ================================================================== *)
(** * The upload queue *)
(* ================================================================== *)

Section QueueFacts.

Variables File Document : Type.

Lemma splice1_length (index : Z) (l : list File) :
  List.length (Documents.splice1 File index l)
  = if (index <? Z.of_nat (List.length l))%Z
    then List.length l - 1 else List.length l.
Proof.
  unfold Documents.splice1, Documents.spliceStart.
  rewrite length_app, length_firstn, length_skipn.
  destruct (index <? Z.of_nat (List.length l))%Z eqn:Hlt;
    destruct (index <? 0)%Z eqn:Hneg;
    rewrite ?Z.ltb_lt, ?Z.ltb_ge in *; lia.
Qed.

End QueueFacts.

(** X13. [removeFromUploadQueue(index)] removes at most one file and
    keeps the others in order. An index at or past the end removes
    nothing; an index from 0 up to the end removes the file at that
    position; a negative index counts from the end (-1 removes the last
    file) and one below minus the length removes the first file. The
    flags of the store are untouched. *)
Theorem X13_removeFromUploadQueue_bounds
    (File Document : Type) (index : Z)
    (s : Documents.DocumentStore File Document) :
  let q := Documents.uploadQueue File Document s in
  let s' := Documents.removeFromUploadQueue File Document index s in
  let q' := Documents.uploadQueue File Document s' in
  let len := Z.of_nat (List.length q) in
  let at_ := (if (index <? 0)%Z then Z.to_nat (Z.max (len + index) 0)
              else Z.to_nat index) in
  Documents.isUploading File Document s'
  = Documents.isUploading File Document s
  /\ ((len <= index)%Z -> q' = q)
  /\ ((index < len)%Z ->
      q' = firstn at_ q ++ skipn (S at_) q
      /\ List.length q' = List.length q - 1).
Proof.
  intros q s' q' len at_. subst s' q' at_. cbn.
  fold q. split; [reflexivity|]. split.
  - intros Hge. unfold Documents.splice1, Documents.spliceStart.
    fold q. fold len.
    assert (Hneg : (index <? 0)%Z = false) by (apply Z.ltb_ge; lia).
    rewrite Hneg.
    replace (Z.to_nat (Z.min index len)) with (List.length q) by lia.
    rewrite firstn_all, skipn_all2 by lia. apply app_nil_r.
  - intros Hlt. split.
    + unfold Documents.splice1, Documents.spliceStart. fold q. fold len.
      destruct (index <? 0)%Z eqn:Hneg.
      * now rewrite Nat.add_1_r.
      * apply Z.ltb_ge in Hneg.
        replace (Z.to_nat (Z.min index len)) with (Z.to_nat index) by lia.
        now rewrite Nat.add_1_r.
    + rewrite splice1_length. fold q. fold len.
      now rewrite (proj2 (Z.ltb_lt index len) Hlt).
Qed.

Lemma X13_removeFromUploadQueue_witness :
  let s := Documents.mkDocs nat nat [10; 20; 30] false None in
  let q := Documents.uploadQueue nat nat s in
  let s' := Documents.removeFromUploadQueue nat nat (-1) s in
  let q' := Documents.uploadQueue nat nat s' in
  let len := Z.of_nat (List.length q) in
  let at_ := (if (-1 <? 0)%Z then Z.to_nat (Z.max (len + -1) 0)
              else Z.to_nat (-1)) in
  (-1 < len)%Z
  /\ q' = [10; 20]
  /\ q' = firstn at_ q ++ skipn (S at_) q
  /\ List.length q' = List.length q - 1.
Proof.
  cbv zeta. split; [reflexivity|]. split; [reflexivity|].
  apply (proj2 (proj2 (X13_removeFromUploadQueue_bounds
                         nat nat (-1)
                         (Documents.mkDocs nat nat [10; 20; 30] false None)))).
  reflexivity.
Defined.

(* ================================================================== *)
(** * Query keys *)
(* ================================================================== *)

(** X14. No query key of [queryKeys] is a prefix of the key of another
    query, whatever the ids: a filter made of one key matches that query
    only, so invalidating the list of conversations does not touch a
    conversation's own query, nor the other way round. *)
Theorem X14_query_keys_are_prefix_free (q1 q2 : QueryKeys.Query) :
  QueryKeys.matchesPrefix (QueryKeys.keyOf q1) (QueryKeys.keyOf q2) = true ->
  q1 = q2.
Proof.
  destruct q1 as [|i1| | | |i1| | | ], q2 as [|i2| | | |i2| | | ];
    cbn [QueryKeys.keyOf QueryKeys.matchesPrefix]; intros H;
    try reflexivity;
    try (vm_compute in H; discriminate H).
  - change (AppActions.sameId (Some (lit "conversation"))
              (Some (lit "conversation"))) with true in H.
    cbn [andb] in H. rewrite andb_true_r in H.
    apply sameId_eq in H. now subst.
  - change (AppActions.sameId (Some (lit "document"))
              (Some (lit "document"))) with true in H.
    cbn [andb] in H. rewrite andb_true_r in H.
    apply sameId_eq in H. now subst.
Qed.

Lemma X14_query_keys_witness :
  QueryKeys.matchesPrefix
    (QueryKeys.keyOf (QueryKeys.conversation (Some convA)))
    (QueryKeys.keyOf (QueryKeys.conversation (Some convA))) = true
  /\ QueryKeys.conversation (Some convA) = QueryKeys.conversation (Some convA).
Proof.
  split; [reflexivity|].
  apply (X14_query_keys_are_prefix_free
           (QueryKeys.conversation (Some convA))
           (QueryKeys.conversation (Some convA))).
  reflexivity.
Defined.

(* ================================================================== *)
(** * [handleSubmit], accepted *)
(* ================================================================== *)

Section SubmitFacts.

(** What [handleSubmit] does when its guard lets the submit through. *)
Lemma handleSubmit_accepted (chat : ChatStore) (app : AppStore)
    (world : World) (c : jsstring) :
  Js.truthy (trim (inputValue chat)) = true ->
  isStreaming chat = false ->
  currentConversationId app = Some c ->
  Js.truthy c = true ->
  let data := mkRequest (trim (inputValue chat)) (currentModelName app)
                (Some (lit "0.3")) (Some 2048%N) in
  handleSubmit chat app world
  = (SetInputValue [] :: fst (mutateAsync world c data)
       ++ match snd (mutateAsync world c data) with
          | Resolved => []
          | Rejected _ => [ToastError (lit "Failed to send message");
                           SetInputValue (trim (inputValue chat))]
          end,
     Resolved).
Proof.
  intros Ht Hs Hc Hp data. subst data. unfold handleSubmit.
  rewrite Ht, Hs, Hc. cbn [present negb orb]. rewrite Hp. cbn [negb orb].
  destruct (mutateAsync world c _) as [trace [|e]]; cbn [fst snd].
  - now rewrite app_nil_r.
  - reflexivity.
Qed.

Lemma handleSubmit_refused (chat : ChatStore) (app : AppStore)
    (world : World) :
  negb (Js.truthy (trim (inputValue chat))) || isStreaming chat
    || negb (present (currentConversationId app)) = true ->
  handleSubmit chat app world = ([], Resolved).
Proof. intros H. unfold handleSubmit. now rewrite H. Qed.

(** Every request of a submit is the one [handleSubmit] built. *)
Lemma mutateAsync_request_in (world : World) (c : jsstring)
    (data : SendMessageRequest)
    (c' : jsstring) (data' : SendMessageRequest) :
  In (ApiSendMessage c' data') (fst (mutateAsync world c data)) ->
  c' = c /\ data' = data.
Proof.
  intros H.
  assert (Hf : In (ApiSendMessage c' data')
                  (filter isRequest (fst (mutateAsync world c data))))
    by (apply filter_In; split; [exact H|reflexivity]).
  rewrite mutateAsync_requests in Hf. apply repeat_spec in Hf.
  injection Hf as -> ->. now split.
Qed.

(** One run on a store whose buffer is empty. *)
Lemma runAt_idle (world : World) (c : jsstring) (data : SendMessageRequest)
    (i : nat) (s : ChatStore) :
  currentResponse s = [] ->
  exec (fst (runAt world c data i)) s
  = mkChat (messages s ++ added world c data i) false [] (isLoading s)
      (match failure (sentAt world c data i) with
       | None => None
       | Some e => Some (messageOr (lit "Failed to send message") e)
       end)
      (inputValue s) (isComposing s).
Proof.
  intros Hs. unfold runAt, mutationFn. rewrite send_idle by exact Hs.
  rewrite mutationFnOn_outcome. fold (sentAt world c data i).
  unfold added. now destruct (failure (sentAt world c data i)).
Qed.

End SubmitFacts.

(** X15. [handleSubmit] never rejects, whatever the stores and whatever
    the network does. And a request it sends always carries a message
    that is the trimmed input and not empty, the id of the selected
    conversation, not empty either, the selected model name, the
    temperature 0.3 and 2048 as token limit. *)
Theorem X15_handleSubmit_never_rejects
    (chat : ChatStore) (app : AppStore) (world : World) :
  snd (handleSubmit chat app world) = Resolved
  /\ forall c data,
       In (ApiSendMessage c data) (fst (handleSubmit chat app world)) ->
       currentConversationId app = Some c
       /\ c <> []
       /\ message data = trim (inputValue chat)
       /\ message data <> []
       /\ model_name data = currentModelName app
       /\ temperature data = Some (lit "0.3")
       /\ max_tokens data = Some 2048%N.
Proof.
  destruct (negb (Js.truthy (trim (inputValue chat))) || isStreaming chat
            || negb (present (currentConversationId app))) eqn:Hg.
  - rewrite (handleSubmit_refused chat app world Hg).
    split; [reflexivity|]. intros c data [].
  - apply orb_false_elim in Hg as [Hg Hp].
    apply orb_false_elim in Hg as [Ht Hs].
    apply negb_false_iff in Ht, Hp.
    destruct (currentConversationId app) as [c0|] eqn:Hc; [|discriminate Hp].
    cbn [present] in Hp.
    rewrite (handleSubmit_accepted chat app world c0 Ht Hs Hc Hp).
    split; [reflexivity|].
    intros c data Hin. cbn [fst] in Hin.
    destruct Hin as [Hin|Hin]; [discriminate Hin|].
    apply in_app_or in Hin as [Hin|Hin].
    + apply mutateAsync_request_in in Hin as [-> ->]. cbn.
      repeat split.
      * intros ->. discriminate Hp.
      * intros E. rewrite E in Ht. discriminate Ht.
    + destruct (snd (mutateAsync world c0 _)); simpl in Hin;
        repeat (destruct Hin as [Hin|Hin]; [discriminate Hin|]);
        contradiction.
Qed.

Lemma X15_handleSubmit_witness :
  In (ApiSendMessage convA
        (mkRequest (lit "hello") None (Some (lit "0.3")) (Some 2048%N)))
     (fst (handleSubmit typed selectedA
             (always envA (FetchResolved exampleB))))
  /\ currentConversationId selectedA = Some convA
  /\ convA <> []
  /\ message (mkRequest (lit "hello") None (Some (lit "0.3")) (Some 2048%N))
     = trim (inputValue typed).
Proof.
  assert (H : In (ApiSendMessage convA
                    (mkRequest (lit "hello") None (Some (lit "0.3"))
                               (Some 2048%N)))
                 (fst (handleSubmit typed selectedA
                         (always envA (FetchResolved exampleB)))))
    by (vm_compute; right; right; right; right; right; left; reflexivity).
  split; [exact H|].
  destruct (proj2 (X15_handleSubmit_never_rejects
                     typed selectedA (always envA (FetchResolved exampleB)))
                  _ _ H) as [H1 [H2 [H3 _]]].
  repeat split; assumption.
Defined.

(** X16. A submit that is accepted, on a store reached between sends with
    some text typed, and with no other call on the store until it has
    settled: for each run the mutation makes, the transcript gains
    the user message, holding the trimmed text, and the placeholder,
    holding the tokens that run read; a submit retried twice leaves the
    question three times. If the last run resolved, the input stays empty
    and nothing is reported. If it failed, one toast is shown, its error
    is the one recorded, and the input gets the trimmed text back, while
    the messages of every run stay in the transcript. *)
Theorem X16_store_after_an_accepted_submit
    (history : list Event) (text c : jsstring) (model : option jsstring)
    (world : World) :
  Js.truthy (trim text) = true ->
  Js.truthy c = true ->
  let chat := chatActions.setInputValue text (after history) in
  let data := mkRequest (trim text) model (Some (lit "0.3")) (Some 2048%N) in
  let run := handleSubmit chat (mkApp (Some c) model) world in
  let s := exec (fst run) chat in
  let n := List.length (filter isRequest (fst run)) in
  let last := sentAt world c data (n - 1) in
  messages s
  = messages (after history) ++ flat_map (added world c data) (seq 0 n)
  /\ isStreaming s = false
  /\ inputValue s = match failure last with
                    | None => []
                    | Some _ => trim text
                    end
  /\ error s = match failure last with
               | None => None
               | Some e => Some (messageOr (lit "Failed to send message") e)
               end
  /\ List.length (filter isToast (fst run))
     = match failure last with None => 0 | Some _ => 1 end.
Proof.
  intros Ht Hc chat data run s n last. subst last n s run.
  assert (Hs : isStreaming chat = false) by apply after_not_streaming.
  assert (Hi : currentResponse (chatActions.setInputValue [] chat) = [])
    by apply after_idle.
  rewrite (handleSubmit_accepted chat (mkApp (Some c) model) world c
             Ht Hs eq_refl Hc).
  cbn [fst currentModelName].
  change (inputValue chat) with text. fold data.
  change (exec (SetInputValue [] :: ?l) chat)
    with (exec l (chatActions.setInputValue [] chat)).
  change (filter isRequest (SetInputValue [] :: ?l))
    with (filter isRequest l).
  change (filter isToast (SetInputValue [] :: ?l)) with (filter isToast l).
  rewrite !filter_app, mutateAsync_toasts, mutateAsync_requests.
  rewrite exec_app, mutateAsync_cases.
  destruct (failure (sentAt world c data 0)) as [e0|] eqn:H0;
    [destruct (retry 0 e0);
     [destruct (failure (sentAt world c data 1)) as [e1|] eqn:H1;
      [destruct (retry 1 e1);
       [rewrite runAt_outcome;
        destruct (failure (sentAt world c data 2)) as [e2|] eqn:H2|]|]|]|];
    cbn [fst snd]; rewrite ?exec_app;
    rewrite (runAt_idle world c data 0 _ Hi);
    try rewrite (runAt_idle world c data 1) by reflexivity;
    try rewrite (runAt_idle world c data 2) by reflexivity;
    cbn; rewrite ?H0, ?H1, ?H2, <- ?app_assoc; repeat split.
Qed.

Lemma X16_submit_witness :
  Js.truthy (trim (lit " hello ")) = true
  /\ Js.truthy convA = true
  /\ List.length
       (messages
          (exec (fst (handleSubmit
                        (chatActions.setInputValue (lit " hello ") (after []))
                        (mkApp (Some convA) None)
                        (always envA (FetchResolved exampleB))))
                (chatActions.setInputValue (lit " hello ") (after []))))
     = 6.
Proof.
  split; [reflexivity|]. split; [reflexivity|].
  rewrite (proj1 (X16_store_after_an_accepted_submit
                    [] (lit " hello ") convA None
                    (always envA (FetchResolved exampleB))
                    eq_refl eq_refl)).
  reflexivity.
Defined.

(* ================================================================== *)
(** * What is rendered *)
(* ================================================================== *)

(** X17. The send button and the guard of [handleSubmit] agree up to the
    loading flag: when the button is enabled a submit always sends the
    request, and when a submit sends the request the button was enabled
    or the store's loading flag was set (the guard does not read it). *)
Theorem X17_enabled_button_sends
    (chat : ChatStore) (app : AppStore) (world : World) :
  (Rendering.sendDisabled chat app = false ->
   requested (fst (handleSubmit chat app world)) = true)
  /\ (requested (fst (handleSubmit chat app world)) = true ->
      Rendering.sendDisabled chat app = false \/ isLoading chat = true).
Proof.
  unfold Rendering.sendDisabled, Rendering.isDisabled.
  destruct (negb (Js.truthy (trim (inputValue chat))) || isStreaming chat
            || negb (present (currentConversationId app))) eqn:Hg.
  - rewrite (handleSubmit_refused chat app world Hg). split.
    + intros Hd. exfalso.
      destruct (Js.truthy (trim (inputValue chat))), (isStreaming chat),
        (present (currentConversationId app)), (isLoading chat);
        discriminate.
    + discriminate.
  - pose proof Hg as Hg'.
    apply orb_false_elim in Hg as [Hg Hp].
    apply orb_false_elim in Hg as [Ht Hs].
    apply negb_false_iff in Ht, Hp.
    destruct (currentConversationId app) as [c0|] eqn:Hc; [|discriminate Hp].
    cbn [present] in Hp.
    rewrite (handleSubmit_accepted chat app world c0 Ht Hs Hc Hp).
    cbn [fst].
    match goal with
    | |- context [mutateAsync world c0 ?d] =>
        destruct (mutateAsync_head world c0 d) as [later ->]
    end.
    unfold runAt, mutationFn. rewrite mutationFnOn_trace.
    split.
    + intros _. unfold requested. apply existsb_exists.
      eexists. split.
      * right. apply in_or_app. left. apply in_or_app. left.
        apply in_or_app. right. now left.
      * reflexivity.
    + intros _. cbn [present]. rewrite Hs, Ht, Hp. cbn.
      destruct (isLoading chat); auto.
Qed.

Lemma X17_button_witness :
  Rendering.sendDisabled typed selectedA = false
  /\ requested (fst (handleSubmit typed selectedA
                       (always envA (FetchResolved exampleB)))) = true.
Proof.
  split; [reflexivity|].
  apply (proj1 (X17_enabled_button_sends typed selectedA
                  (always envA (FetchResolved exampleB)))).
  reflexivity.
Defined.

Section RenderingFacts.

Import Rendering.

Lemma flagsFrom_not_streaming (chat : ChatStore) (l : list Message) :
  isStreaming chat = false ->
  forall i, flagsFrom chat i l = repeat false (List.length l).
Proof.
  intros Hs. induction l as [|m l IH]; intros i; [reflexivity|].
  cbn [flagsFrom List.length repeat]. rewrite IH.
  unfold streamingAt. now rewrite Hs.
Qed.

(** On indexes before the last one no message is flagged. *)
Lemma flagsFrom_before_last (chat : ChatStore) (l : list Message) :
  forall i,
    i + List.length l <= List.length (messages chat) - 1 ->
    flagsFrom chat i l = repeat false (List.length l).
Proof.
  induction l as [|m l IH]; intros i Hi; [reflexivity|].
  cbn [flagsFrom List.length repeat] in *. rewrite IH by lia.
  unfold streamingAt.
  replace (i =? List.length (messages chat) - 1) with false
    by (symmetry; apply Nat.eqb_neq; lia).
  now rewrite andb_false_r.
Qed.

Lemma streamingFlags_snoc (chat : ChatStore) (front : list Message)
    (m : Message) :
  messages chat = front ++ [m] ->
  streamingFlags chat
  = repeat false (List.length front)
      ++ [isStreaming chat && isAssistant (role m)].
Proof.
  intros Hm. unfold streamingFlags. rewrite Hm.
  assert (Happ : forall l1 l2 i,
             flagsFrom chat i (l1 ++ l2)
             = flagsFrom chat i l1 ++ flagsFrom chat (i + List.length l1) l2).
  { induction l1 as [|x l1 IH]; intros l2 i; cbn [app flagsFrom List.length].
    - now rewrite Nat.add_0_r.
    - rewrite IH. now rewrite Nat.add_succ_r. }
  rewrite Happ, flagsFrom_before_last
    by (rewrite Hm, length_app; simpl; lia).
  cbn [flagsFrom]. unfold streamingAt.
  rewrite Hm, length_app. cbn [List.length].
  replace (0 + List.length front =? List.length front + 1 - 1)%nat with true
    by (symmetry; apply Nat.eqb_eq; lia).
  now rewrite andb_true_r.
Qed.

End RenderingFacts.

(** X18. While a send is in flight, after any number of tokens, the
    transcript is not empty and [MessageList] marks exactly one message
    as streaming: the last one, which is the send's placeholder. Once the
    send has ended, however it ended, no message is marked. *)
Theorem X18_placeholder_is_the_streaming_message
    (history : list Event) (env : Env) (c : jsstring)
    (data : SendMessageRequest) (tokens : list jsstring) (n : nat)
    (e : StreamEnd) :
  let during := inFlight env c data tokens n (after history) in
  let ended := exec (fst (mutationFnOn env c data (inr (tokens, e))))
                    (after history) in
  Rendering.showsWelcome during = false
  /\ Rendering.streamingFlags during
     = repeat false (List.length (messages (after history)) + 1) ++ [true]
  /\ lastOf (messages during)
     = Some (withContent (Js.concat (firstn n tokens)) (assistantMessage env))
  /\ Rendering.streamingFlags ended
     = repeat false (List.length (messages (after history)) + 2).
Proof.
  intros during ended. subst during ended.
  rewrite inFlight_idle, send_idle by apply after_idle.
  split; [|split; [|split]].
  - unfold Rendering.showsWelcome. cbn [messages].
    rewrite length_app. apply Nat.eqb_neq. simpl. lia.
  - rewrite (streamingFlags_snoc _
               (messages (after history) ++ [userMessage env data])
               (withContent (Js.concat (firstn n tokens))
                            (assistantMessage env)))
      by (cbn [messages]; rewrite <- app_assoc; reflexivity).
    rewrite length_app. reflexivity.
  - cbn [messages]. apply lastOf_two.
  - unfold Rendering.streamingFlags.
    rewrite flagsFrom_not_streaming by reflexivity.
    cbn [messages]. rewrite length_app. reflexivity.
Qed.

(* ================================================================== *)
(** * The groups of the conversation list *)
(* ================================================================== *)

Lemma four_succ (a b c d n : nat) :
  a + b + c + d = n ->
  S a + b + c + d = S n /\ a + S b + c + d = S n
  /\ a + b + S c + d = S n /\ a + b + c + S d = S n.
Proof. lia. Qed.

Section GroupingFacts.

Variable Conversation : Type.
Variable updated_at : Conversation -> option Z.

Import Grouping.

Lemma atLeast_mono (t : option Z) (a b : Z) :
  (a <= b)%Z -> atLeast t b = true -> atLeast t a = true.
Proof.
  destruct t as [ms|]; simpl; [|discriminate].
  rewrite !Z.leb_le. lia.
Qed.

Lemma grouped_as_filters (T : Z) (convs : list Conversation) :
  forall g : Groups Conversation,
    fold_left (place Conversation updated_at T) convs g
    = mkGroups Conversation
        (today _ g ++ filter (isToday Conversation updated_at T) convs)
        (yesterday _ g ++ filter (isYesterday Conversation updated_at T) convs)
        (lastWeek _ g ++ filter (isLastWeek Conversation updated_at T) convs)
        (older _ g ++ filter (isOlder Conversation updated_at T) convs).
Proof.
  induction convs as [|conv convs IH]; intros g.
  - simpl. rewrite !app_nil_r. now destruct g.
  - cbn [fold_left filter]. rewrite IH. unfold place.
    unfold isToday, isYesterday, isLastWeek, isOlder.
    assert (Hd : (0 < day)%Z) by reflexivity.
    destruct (atLeast (updated_at conv) T) eqn:H0.
    + rewrite (atLeast_mono _ (T - day) T) by (assumption || lia).
      rewrite (atLeast_mono _ (T - 7 * day) T) by (assumption || lia).
      cbn. now rewrite <- app_assoc.
    + destruct (atLeast (updated_at conv) (T - day)) eqn:H1.
      * rewrite (atLeast_mono _ (T - 7 * day) (T - day))
          by (assumption || lia).
        cbn. now rewrite <- app_assoc.
      * destruct (atLeast (updated_at conv) (T - 7 * day)) eqn:H2;
          cbn; now rewrite <- app_assoc.
Qed.

Lemma filters_cover (T : Z) (convs : list Conversation) :
  List.length (filter (isToday Conversation updated_at T) convs)
  + List.length (filter (isYesterday Conversation updated_at T) convs)
  + List.length (filter (isLastWeek Conversation updated_at T) convs)
  + List.length (filter (isOlder Conversation updated_at T) convs)
  = List.length convs.
Proof.
  induction convs as [|c convs IH]; [reflexivity|].
  assert (Hd : (0 < day)%Z) by reflexivity.
  unfold isToday, isYesterday, isLastWeek, isOlder in *.
  cbn [filter].
  destruct (atLeast (updated_at c) T) eqn:H0.
  - rewrite (atLeast_mono _ (T - day) T) by (assumption || lia).
    rewrite (atLeast_mono _ (T - 7 * day) T) by (assumption || lia).
    cbn [negb andb List.length]. now apply four_succ.
  - destruct (atLeast (updated_at c) (T - day)) eqn:H1.
    + rewrite (atLeast_mono _ (T - 7 * day) (T - day))
        by (assumption || lia).
      cbn [negb andb List.length]. now apply four_succ.
    + destruct (atLeast (updated_at c) (T - 7 * day));
        cbn [negb andb List.length]; now apply four_succ.
Qed.

End GroupingFacts.

(** X19. [groupedConversations] puts every conversation in exactly one
    group and keeps the order of the list inside each group: "today"
    holds those updated at or after local midnight, "yesterday" those of
    the 24 hours before it, "lastWeek" those of the six days before
    that, and "older" all the rest, a conversation whose date does not
    parse included; the four groups together have as many entries as the
    list. *)
Theorem X19_groups_partition_the_list
    (Conversation : Type) (updated_at : Conversation -> option Z)
    (T : Z) (convs : list Conversation) :
  let g := Grouping.groupedConversations Conversation updated_at T convs in
  let at_ := Grouping.atLeast in
  let day := Grouping.day in
  Grouping.today _ g = filter (fun c => at_ (updated_at c) T) convs
  /\ Grouping.yesterday _ g
     = filter (fun c => negb (at_ (updated_at c) T)
                        && at_ (updated_at c) (T - day)%Z) convs
  /\ Grouping.lastWeek _ g
     = filter (fun c => negb (at_ (updated_at c) (T - day)%Z)
                        && at_ (updated_at c) (T - 7 * day)%Z) convs
  /\ Grouping.older _ g
     = filter (fun c => negb (at_ (updated_at c) (T - 7 * day)%Z)) convs
  /\ List.length (Grouping.today _ g) + List.length (Grouping.yesterday _ g)
     + List.length (Grouping.lastWeek _ g) + List.length (Grouping.older _ g)
     = List.length convs.
Proof.
  intros g at_ day. subst g at_ day. unfold Grouping.groupedConversations.
  rewrite grouped_as_filters.
  cbn [Grouping.today Grouping.yesterday Grouping.lastWeek Grouping.older app].
  repeat split. apply filters_cover.
Qed.

(* ================================================================== *)
(** * [truncateText] and [throttle] *)
(* ================================================================== *)

(** X20. For a limit that is not negative, [truncateText] returns the
    text itself when it has at most [maxLength] code units, and otherwise
    its first [maxLength] code units followed by three dots: the result
    then has [maxLength + 3] code units, three more than the limit, and
    is longer than a text that exceeded the limit by one or two. *)
Theorem X20_truncateText_length (text : list N) (maxLength : Z) :
  (0 <= maxLength)%Z ->
  let len := Z.of_nat (List.length text) in
  let out := Utils.truncateText text maxLength in
  ((len <= maxLength)%Z -> out = text)
  /\ ((maxLength < len)%Z ->
      out = firstn (Z.to_nat maxLength) text ++ lit "..."
      /\ Z.of_nat (List.length out) = (maxLength + 3)%Z).
Proof.
  intros Hmax len out. subst out. unfold Utils.truncateText. fold len.
  split.
  - intros Hle. now rewrite (proj2 (Z.leb_le len maxLength) Hle).
  - intros Hlt. rewrite (proj2 (Z.leb_gt len maxLength) Hlt).
    unfold Utils.sliceTo. fold len.
    rewrite (proj2 (Z.ltb_ge maxLength 0) Hmax).
    replace (Z.min maxLength len) with maxLength by lia.
    split; [reflexivity|].
    rewrite length_app, length_firstn. cbn [lit List.length map bytes].
    change (List.length (lit "...")) with 3. subst len. lia.
Qed.

Lemma X20_truncateText_witness :
  (0 <= 4)%Z
  /\ (4 < Z.of_nat (List.length (lit "hello")))%Z
  /\ Utils.truncateText (lit "hello") 4 = lit "hell..."
  /\ Utils.truncateText (lit "hello") 4
     = firstn (Z.to_nat 4) (lit "hello") ++ lit "..."
  /\ Z.of_nat (List.length (Utils.truncateText (lit "hello") 4)) = (4 + 3)%Z.
Proof.
  split; [discriminate|]. split; [reflexivity|]. split; [reflexivity|].
  apply (proj2 (X20_truncateText_length (lit "hello") 4 ltac:(discriminate))).
  reflexivity.
Defined.

Section ThrottleFacts.

Variable Args : Type.

(** Every call that got through is at least [wait] after the one before
    it and after [lastTime]. *)
Lemma throttleRun_spaced (wait : Z) (calls : list (Z * Args)) :
  forall lastTime,
    Utils.spaced Args wait (Utils.throttleRun Args wait lastTime calls)
    /\ match Utils.throttleRun Args wait lastTime calls with
       | [] => True
       | (t, _) :: _ => (wait <= t - lastTime)%Z
       end.
Proof.
  induction calls as [|[now args] calls IH]; intros lastTime;
    [split; exact I|].
  cbn [Utils.throttleRun]. unfold Utils.throttled.
  destruct (wait <=? now - lastTime)%Z eqn:Hw.
  - destruct (IH now) as [Hs Hh]. apply Z.leb_le in Hw.
    split; [|exact Hw].
    cbn [Utils.spaced]. split; [|exact Hs].
    destruct (Utils.throttleRun Args wait now calls) as [|[t2 a2] rest];
      [exact I|exact Hh].
  - apply IH.
Qed.

Lemma throttleRun_sub (wait : Z) (calls : list (Z * Args)) :
  forall lastTime,
    exists keep : list bool,
      List.length keep = List.length calls
      /\ Utils.throttleRun Args wait lastTime calls
         = map snd (filter fst (combine keep calls)).
Proof.
  induction calls as [|[now args] calls IH]; intros lastTime.
  - now exists [].
  - cbn [Utils.throttleRun]. unfold Utils.throttled.
    destruct (wait <=? now - lastTime)%Z.
    + destruct (IH now) as [keep [Hl Hk]].
      exists (true :: keep). simpl. rewrite Hl, Hk. now split.
    + destruct (IH lastTime) as [keep [Hl Hk]].
      exists (false :: keep). simpl. rewrite Hl, Hk. now split.
Qed.

End ThrottleFacts.

(** X21. Of the calls made to a throttled function, the ones that reach
    [func] are some of the calls, in the order they were made, with their
    own arguments; any two consecutive ones are at least [wait] apart on
    the clock; the first call of all gets through exactly when the clock
    reads at least [wait]; and a call that comes too early is dropped,
    not postponed. *)
Theorem X21_throttle_spacing
    (Args : Type) (wait : Z) (calls : list (Z * Args)) :
  Utils.spaced Args wait (Utils.throttle Args wait calls)
  /\ (exists keep : list bool,
        List.length keep = List.length calls
        /\ Utils.throttle Args wait calls
           = map snd (filter fst (combine keep calls)))
  /\ match calls with
     | [] => Utils.throttle Args wait calls = []
     | (now, args) :: rest =>
         Utils.throttle Args wait calls
         = if (wait <=? now)%Z
           then (now, args) :: Utils.throttleRun Args wait now rest
           else Utils.throttleRun Args wait 0 rest
     end.
Proof.
  unfold Utils.throttle. split; [|split].
  - apply throttleRun_spaced.
  - apply throttleRun_sub.
  - destruct calls as [|[now args] rest]; [reflexivity|].
    cbn [Utils.throttleRun]. unfold Utils.throttled.
    rewrite Z.sub_0_r. now destruct (wait <=? now)%Z.
Qed.

(* ================================================================== *)
(** * What [request] rejects with *)
(* ================================================================== *)

Section RequestFacts.

Import ApiRequest.

Lemma requestTry_answered (r : JsonResponse) :
  match requestTry (Answered r) with
  | inl (RaisedOther e) =>
      (ok (response r) = false
       /\ isFetchTypeError e = false /\ isApiError e = false)
      \/ (ok (response r) = true /\ json (response r) = None
          /\ e = jsonFailure r)
  | inl (RaisedApi _ status _) =>
      ok (response r) = false /\ status = Some (Api.status (response r))
      /\ json (response r) <> Some JNull
  | inr _ => ok (response r) = true
  end.
Proof.
  unfold requestTry.
  destruct (ok (response r)) eqn:Hok; cbn [negb].
  - destruct (contentType r) as [ct|]; [|reflexivity].
    destruct (includes (lit "application/json") ct); [|reflexivity].
    destruct (json (response r)); [reflexivity|]. right. now repeat split.
  - destruct (json (response r)) as [[|b|nz text|str|items|members]|];
      cbn [getProperty]; try (repeat split; discriminate).
    + left. repeat split.
    + destruct (lookup (lit "detail") members) as [d|];
        [destruct (truthy d); [destruct (ToString d)|]|];
        try (repeat split; discriminate).
      left. repeat split.
Qed.

End RequestFacts.

(** X22. [request] rejects with a [NetworkError] only when [fetch] itself
    was refused with a [TypeError] whose message mentions "fetch", or
    when reading a success body as JSON failed with such an error; its
    message is then "Unable to connect to the server". Every other
    failure is an [ApiError]. *)
Theorem X22_request_network_error (f : ApiRequest.Fetched) :
  match ApiRequest.request f with
  | inl (ApiRequest.RejectNetwork m) =>
      m = ApiRequest.unreachableMessage
      /\ ((exists e, f = ApiRequest.Refused e
                     /\ ApiRequest.isFetchTypeError e = true)
          \/ (exists r, f = ApiRequest.Answered r
                        /\ ok (ApiRequest.response r) = true
                        /\ json (ApiRequest.response r) = None
                        /\ ApiRequest.isFetchTypeError
                             (ApiRequest.jsonFailure r) = true))
  | _ => True
  end.
Proof.
  unfold ApiRequest.request.
  destruct f as [e|r].
  - cbn [ApiRequest.requestTry].
    destruct e as [m st code|m|name m|]; try exact I.
    destruct (ApiRequest.isFetchTypeError (OtherError name m)) eqn:Hf;
      [|exact I].
    split; [reflexivity|]. left. eexists. split; [reflexivity|exact Hf].
  - pose proof (requestTry_answered r) as H.
    destruct (ApiRequest.requestTry (ApiRequest.Answered r))
      as [[m st code|e]|v]; try exact I.
    destruct H as [[_ [Hf Ha]]|[Hok [Hj ->]]].
    + destruct e; try discriminate Ha; try exact I; now rewrite Hf.
    + destruct (ApiRequest.jsonFailure r) as [m st code|m|name m|] eqn:Hjf;
        try exact I.
      destruct (ApiRequest.isFetchTypeError (OtherError name m)) eqn:Hf;
        [|exact I].
      split; [reflexivity|]. right. exists r. rewrite Hjf. now repeat split.
Qed.

(** X23. For a response with a failure status, [request] always rejects
    with an [ApiError]. When the body is the JSON value [null], or an
    object whose truthy [detail] cannot be converted to a string (an
    object or array holding a member named toString), building the error
    throws, and what is rejected is "An unexpected error occurred" without
    status and code. In every other case the error carries the response's
    status and the body's [code]; its message is the converted [detail]
    when the body is an object with a truthy [detail], and the status line
    otherwise. A success response whose content type is not JSON resolves
    to an empty object, whatever its body. *)
Theorem X23_request_failure_status (r : ApiRequest.JsonResponse) :
  (ok (ApiRequest.response r) = false ->
   let rejected := ApiRequest.request (ApiRequest.Answered r) in
   let lost :=
     inl (ApiRequest.RejectApi ApiRequest.unexpectedMessage None None) in
   let line := httpMessage (ApiRequest.response r) in
   let st := Some (status (ApiRequest.response r)) in
   (exists m st' code, rejected = inl (ApiRequest.RejectApi m st' code))
   /\ (json (ApiRequest.response r) = Some JNull -> rejected = lost)
   /\ (forall members d,
         json (ApiRequest.response r) = Some (JObject members) ->
         lookup (lit "detail") members = Some d ->
         truthy d = true ->
         match ToString d with
         | None => rejected = lost
         | Some text =>
             rejected
             = inl (ApiRequest.RejectApi text st
                      (lookup (lit "code") members))
         end)
   /\ (forall members,
         json (ApiRequest.response r) = Some (JObject members) ->
         match lookup (lit "detail") members with
         | Some d => truthy d = false
         | None => True
         end ->
         rejected
         = inl (ApiRequest.RejectApi line st (lookup (lit "code") members)))
   /\ (match json (ApiRequest.response r) with
       | Some JNull | Some (JObject _) => False
       | _ => True
       end ->
       rejected = inl (ApiRequest.RejectApi line st None)))
  /\ (ok (ApiRequest.response r) = true ->
      match ApiRequest.contentType r with
      | Some ct => ApiRequest.includes (lit "application/json") ct = false
      | None => True
      end ->
      ApiRequest.request (ApiRequest.Answered r) = inr (JObject [])).
Proof.
  split.
  - intros Hok. cbv zeta.
    unfold ApiRequest.request, ApiRequest.requestTry.
    rewrite Hok. cbn [negb].
    split; [|split; [|split; [|split]]].
    + destruct (json (ApiRequest.response r))
        as [[|b|nz text|str|items|members]|];
        cbn [getProperty]; try (do 3 eexists; reflexivity).
      destruct (lookup (lit "detail") members) as [d|];
        [destruct (truthy d); [destruct (ToString d)|]|];
        do 3 eexists; reflexivity.
    + intros ->. reflexivity.
    + intros members d -> Hd Ht. cbn [getProperty]. rewrite Hd, Ht.
      now destruct (ToString d).
    + intros members -> Hd. cbn [getProperty].
      destruct (lookup (lit "detail") members) as [d|]; [|reflexivity].
      now rewrite Hd.
    + destruct (json (ApiRequest.response r))
        as [[|b|nz text|str|items|members]|];
        intros H; try contradiction; reflexivity.
  - intros Hok Hct. unfold ApiRequest.request, ApiRequest.requestTry.
    rewrite Hok. cbn [negb].
    destruct (ApiRequest.contentType r) as [ct|]; [|reflexivity].
    now rewrite Hct.
Qed.

Lemma X23_request_witness :
  ok (ApiRequest.response (ApiRequest.mkJson shadowedDetail None NonError))
  = false
  /\ ToString (JObject [(lit "toString", JString (lit "x"))]) = None
  /\ ApiRequest.request
       (ApiRequest.Answered (ApiRequest.mkJson shadowedDetail None NonError))
     = inl (ApiRequest.RejectApi ApiRequest.unexpectedMessage None None).
Proof.
  split; [reflexivity|]. split; [reflexivity|].
  exact (proj1 (proj2 (proj2
           (proj1 (X23_request_failure_status
                     (ApiRequest.mkJson shadowedDetail None NonError))
                  eq_refl)))
           [(lit "detail", JObject [(lit "toString", JString (lit "x"))])]
           (JObject [(lit "toString", JString (lit "x"))])
           eq_refl eq_refl eq_refl).
Defined.

(* ================================================================== *)
(** * The decoder over a growing list of chunks *)
(* ================================================================== *)

(** X24. Reading more chunks never takes back a string that was
    enqueued: the strings enqueued for the chunks read so far are a prefix
    of the strings enqueued once further chunks follow, however the source
    ends; and once a sentinel line was met, further chunks add nothing. *)
Theorem X24_tokens_only_grow
    (reads more : list (list byte)) (fin : SourceEnd) :
  (exists later,
      fst (pump (reads ++ more) fin) = fst (pump reads SrcDone) ++ later)
  /\ (sawSentinel reads = true ->
      pump (reads ++ more) fin = pump reads SrcDone).
Proof.
  rewrite !pump_allLines, allLines_app, forLines_app. unfold sawSentinel.
  destruct (snd (forLines (allLines reads))) eqn:Hs; cbn [fst snd].
  - split; [exists []; now rewrite app_nil_r|reflexivity].
  - split; [now eexists|discriminate].
Qed.

Lemma X24_tokens_witness :
  sawSentinel exampleA = true
  /\ pump (exampleA ++ twoLines) (SrcFail NonError) = pump exampleA SrcDone.
Proof.
  split; [reflexivity|].
  apply (proj2 (X24_tokens_only_grow exampleA twoLines (SrcFail NonError))).
  reflexivity.
Defined.

(** X25. How the source ends does not change the strings enqueued. If a
    read of the body fails, the stream is errored with that very error
    after them, unless a sentinel line was met in the chunks read before:
    then the stream is closed and the failure is never seen. A closed
    stream hands all of them to its reader. An errored one drops what the
    reader has not taken yet: the reader gets the strings it had taken, a
    prefix of the enqueued ones and possibly none, then the error; so the
    placeholder of a send that fails this way may hold less than was
    decoded. *)
Theorem X25_source_failure
    (reads : list (list byte)) (e : JsThrown) (read : nat) :
  fst (pump reads (SrcFail e)) = fst (pump reads SrcDone)
  /\ snd (pump reads (SrcFail e))
     = (if sawSentinel reads then Closed else Errored e)
  /\ readBy read (pump reads SrcDone) = pump reads SrcDone
  /\ readBy read (pump reads (SrcFail e))
     = (if sawSentinel reads then pump reads SrcDone
        else (firstn read (fst (pump reads SrcDone)), Errored e))
  /\ readBy 0 (pump twoLines (SrcFail e)) = ([], Errored e)
  /\ fst (pump twoLines (SrcFail e)) = [lit "Hello"; lit "World"].
Proof.
  rewrite !pump_allLines. unfold sawSentinel, readBy. cbn [fst snd endOf].
  destruct (snd (forLines (allLines reads))); repeat split.
Qed.
